(** * A task manager: store operations, derivation pipeline, suggestion client

    Shallow embedding of [src/types.ts], [src/App.tsx], the task item
    component ([TaskItem], with its [handleSave]) and the subtask suggestion
    service ([suggestSubtasks]).

    Modelling conventions.
    - A JavaScript string is the list of its UTF-16 code units.
    - Time values (results of [Date.now()] and [getTime()]) are integers,
      modelled in [Z]; only the sign of a difference of two of them is ever
      used, so no rounding is involved.  A string that is not a date would
      give the time value [NaN]; a date input yields the empty string or a
      date, so [NaN] is left out.
    - An optional field ([dueDate?: number]) is an [option]; the source tests
      it by truthiness, which is modelled as such ([None] and [Some 0] are
      both falsy).
    - Arrays are mutable objects: they live in a heap and are passed by
      location, so that [Array.prototype.sort], which sorts in place, acts on
      whichever array it is handed. *)

From Stdlib Require Import ZArith List Bool Lia Permutation Sorted.
From Stdlib Require Import Strings.String Strings.Ascii DecimalString.
From stdpp Require Import base gmap.
Import ListNotations.
Local Open Scope Z_scope.
Set Warnings "-register-all".

(** ** JavaScript strings *)

Module JS.

Definition jsstring := list N.

(** An ASCII literal as a JavaScript string. *)
Definition str (s : string) : jsstring :=
  List.map N_of_ascii (list_ascii_of_string s).

(** Truthiness of a string: every string but the empty one. *)
Definition truthy (s : jsstring) : bool :=
  match s with [] => false | _ :: _ => true end.

(** White space and line terminators of ECMAScript, the code units that
    [String.prototype.trim] removes. *)
Definition is_ws (c : N) : bool :=
  existsb (N.eqb c)
    [9; 10; 11; 12; 13; 32; 160; 5760; 8192; 8193; 8194; 8195; 8196; 8197;
     8198; 8199; 8200; 8201; 8202; 8232; 8233; 8239; 8287; 12288; 65279]%N.

Fixpoint trimStart (s : jsstring) : jsstring :=
  match s with
  | [] => []
  | c :: s' => if is_ws c then trimStart s' else s
  end.

Fixpoint trimEnd (s : jsstring) : jsstring :=
  match s with
  | [] => []
  | c :: s' =>
      match trimEnd s' with
      | [] => if is_ws c then [] else [c]
      | r => c :: r
      end
  end.

Definition trim (s : jsstring) : jsstring := trimEnd (trimStart s).

(** [String(n)] for an integer [n]. *)
Definition String_of (n : Z) : jsstring :=
  str (NilZero.string_of_int (Z.to_int n)).

(** [s.padStart(len, '0')]. *)
Definition padStart0 (len : nat) (s : jsstring) : jsstring :=
  List.repeat 48%N (len - List.length s) ++ s.

(** [Array.prototype.sort(cmp)] on the contents of an array.  ECMAScript
    requires the sort to be stable and calls the comparator on pairs of
    elements; an element [x] that precedes [y] in the input stays before it
    unless [cmp x y > 0].  Insertion from the right is the reference stable
    sort; for a consistent comparator, which [compareTasks] below is, every
    conforming sort returns the same list: the sorted permutation that keeps
    tied elements in their order. *)
Section Sort.
Context {A : Type} (cmp : A -> A -> Z).

Fixpoint insert (x : A) (l : list A) : list A :=
  match l with
  | [] => [x]
  | y :: l' => if cmp x y <=? 0 then x :: l else y :: insert x l'
  end.

Definition sort (l : list A) : list A := List.fold_right insert [] l.

(** A comparator is consistent when "not after" is total and transitive. *)
Definition notAfter (x y : A) : Prop := cmp x y <= 0.

Record consistent : Prop := {
  cmp_total : forall x y, notAfter x y \/ notAfter y x;
  cmp_trans : forall x y z, notAfter x y -> notAfter y z -> notAfter x z
}.
End Sort.

End JS.
Import JS.

(** ** Data model ([src/types.ts]) *)

Record Task := mkTask {
  id : jsstring;
  text : jsstring;
  completed : bool;
  createdAt : Z;
  dueDate : option Z
}.

Inductive FilterType := ALL | ACTIVE | COMPLETED.

(** Truthiness of an optional number, as in [if (t.dueDate)]: [undefined]
    and [0] are falsy. *)
Definition truthyNum (n : option Z) : bool :=
  match n with
  | None => false
  | Some z => negb (z =? 0)
  end.

(** The number held by an optional field that passed the truthiness test. *)
Definition valueOf (n : option Z) : Z := default 0 n.

Definition eqs (a b : jsstring) : bool := bool_decide (a = b).

(** ** The platform's local calendar

    What the components use of [Date], which depends on the time zone of the
    browser.  [getFullYear ts], [getMonth ts] and [getDate ts] are the local
    calendar fields of [new Date(ts)].  [dateFromInput s] is
    [new Date(y, m - 1, d).getTime()] for
    [[y, m, d] = s.split('-').map(Number)], the local midnight of the day
    that a date input's value [s] denotes. *)
Class Calendar := {
  getFullYear : Z -> Z;
  getMonth : Z -> Z;
  getDate : Z -> Z;
  dateFromInput : jsstring -> Z
}.

(** ** Task store ([src/App.tsx]) *)

Section Store.
Context `{Calendar}.

(** The date part shared by [addTask] and [handleSave]:
    [undefined] unless the date string is non-empty. *)
Definition dueDateOf (dateStr : option jsstring) : option Z :=
  match dateStr with
  | Some s => if truthy s then Some (dateFromInput s) else None
  | None => None
  end.

(** [addTask(text, dateStr?)].  [uuid] is the value that
    [crypto.randomUUID()] returns and [now] the one of [Date.now()];
    the result is the state after [setTasks(prev => [newTask, ...prev])]. *)
Definition addTask (uuid : jsstring) (now : Z)
    (text : jsstring) (dateStr : option jsstring) (prev : list Task)
    : list Task :=
  if negb (truthy (trim text)) then prev
  else
    let newTask := {| id := uuid; text := trim text; completed := false;
                      createdAt := now; dueDate := dueDateOf dateStr |} in
    newTask :: prev.

Definition toggleTask (i : jsstring) (prev : list Task) : list Task :=
  List.map (fun t =>
    if eqs (id t) i
    then {| id := id t; text := text t; completed := negb (completed t);
            createdAt := createdAt t; dueDate := dueDate t |}
    else t) prev.

Definition deleteTask (i : jsstring) (prev : list Task) : list Task :=
  List.filter (fun t => negb (eqs (id t) i)) prev.

Definition editTask (i : jsstring) (newText : jsstring)
    (newDueDate : option Z) (prev : list Task) : list Task :=
  List.map (fun t =>
    if eqs (id t) i
    then {| id := id t; text := newText; completed := completed t;
            createdAt := createdAt t; dueDate := newDueDate |}
    else t) prev.

(** The [YYYY-MM-DD] rendering of a time value, written three times in the
    source ([getTodayDate], the date filter, [getInputValue]). *)
Definition localDay (ts : Z) : jsstring :=
  String_of (getFullYear ts) ++ str "-"
    ++ padStart0 2 (String_of (getMonth ts + 1)) ++ str "-"
    ++ padStart0 2 (String_of (getDate ts)).

(** ** Task item component *)

(** [getInputValue(ts?)]. *)
Definition getInputValue (ts : option Z) : jsstring :=
  if negb (truthyNum ts) then [] else localDay (valueOf ts).

(** Local state of one [TaskItem]. *)
Record ItemState := mkItem {
  isEditing : bool;
  editText : jsstring;
  editDate : jsstring
}.

(** [handleSave] of the item showing [task]; [onEdit] is [editTask].
    Returns the item's state and the store's task list. *)
Definition handleSave (task : Task) (st : ItemState) (tasks : list Task)
    : ItemState * list Task :=
  if truthy (trim (editText st)) then
    let newDueDate := dueDateOf (Some (editDate st)) in
    ({| isEditing := false; editText := editText st;
        editDate := editDate st |},
     editTask (id task) (trim (editText st)) newDueDate tasks)
  else
    ({| isEditing := false; editText := text task;
        editDate := getInputValue (dueDate task) |},
     tasks).
End Store.

(** ** Arrays in a heap *)

Module Heap.

Definition loc := nat.
Abbreviation heap := (gmap nat (list Task)).

(** Computations that read and write the heap. *)
Definition M (A : Type) : Type := heap -> A * heap.

Definition ret {A} (a : A) : M A := fun h => (a, h).
Definition bind {A B} (m : M A) (k : A -> M B) : M B :=
  fun h => let (a, h') := m h in k a h'.

Definition contents (h : heap) (a : loc) : list Task :=
  default [] (h !! a).

Definition alloc (l : list Task) : M loc :=
  fun h => let r := fresh (dom h) in (r, <[r := l]> h).

(** [a.filter(p)]: a new array. *)
Definition Array_filter (p : Task -> bool) (a : loc) : M loc :=
  fun h => alloc (List.filter p (contents h a)) h.

(** [a.sort(cmp)]: sorts [a] in place and returns [a] itself. *)
Definition Array_sort (cmp : Task -> Task -> Z) (a : loc) : M loc :=
  fun h => (a, <[a := sort cmp (contents h a)]> h).

End Heap.
Import Heap.

Notation "x <- m ;; k" := (Heap.bind m (fun x => k))
  (at level 100, m at next level, right associativity).

(** ** Derivation pipeline ([filteredTasks] in [src/App.tsx]) *)

Section Pipeline.
Context `{Calendar}.

Definition isALL (f : FilterType) : bool :=
  match f with ALL => true | _ => false end.

(** The predicate of step 2. *)
Definition dateMatches (filterDate : jsstring) (t : Task) : bool :=
  if negb (truthyNum (dueDate t)) then false
  else eqs (localDay (valueOf (dueDate t))) filterDate.

(** The comparator of step 3. *)
Definition compareTasks (filter : FilterType) (filterDate : jsstring)
    (a b : Task) : Z :=
  if isALL filter && negb (eqb (completed a) (completed b)) then
    (if completed a then 1 else -1)
  else if truthy filterDate then createdAt b - createdAt a
  else if truthyNum (dueDate a) && truthyNum (dueDate b) then
    valueOf (dueDate a) - valueOf (dueDate b)
  else if truthyNum (dueDate a) then -1
  else if truthyNum (dueDate b) then 1
  else createdAt b - createdAt a.

(** The body of the [useMemo]: [tasks] is the array held by the store. *)
Definition filteredTasks (tasks : loc) (filter : FilterType)
    (filterDate : jsstring) : M loc :=
  result <- match filter with
            | ACTIVE => Array_filter (fun t => negb (completed t)) tasks
            | COMPLETED => Array_filter completed tasks
            | ALL => ret tasks
            end ;;
  result <- (if truthy filterDate
             then Array_filter (dateMatches filterDate) result
             else ret result) ;;
  Array_sort (compareTasks filter filterDate) result.

(** A store whose array holds [l], at location [0]. *)
Definition store (l : list Task) : heap := {[ 0%nat := l ]}.

(** The list rendered from a store holding [l] ... *)
Definition derived (l : list Task) (filter : FilterType)
    (filterDate : jsstring) : list Task :=
  let (r, h) := filteredTasks 0%nat filter filterDate (store l) in
  contents h r.

(** ... and what the store's array holds after that. *)
Definition tasksAfter (l : list Task) (filter : FilterType)
    (filterDate : jsstring) : list Task :=
  let (r, h) := filteredTasks 0%nat filter filterDate (store l) in
  contents h 0%nat.

(** The status filter as a predicate, and steps 1 and 2 on the contents of
    the arrays: what the pipeline computes is stated with them. *)
Definition passes (filter : FilterType) (t : Task) : bool :=
  match filter with
  | ALL => true
  | ACTIVE => negb (completed t)
  | COMPLETED => completed t
  end.

Definition statusStep (filter : FilterType) (l : list Task) : list Task :=
  match filter with
  | ACTIVE => List.filter (fun t => negb (completed t)) l
  | COMPLETED => List.filter completed l
  | ALL => l
  end.

Definition dateStep (filterDate : jsstring) (l : list Task) : list Task :=
  if truthy filterDate then List.filter (dateMatches filterDate) l else l.
End Pipeline.

(** ** Subtask suggestion client ([suggestSubtasks]) *)

Module Gemini.

(** A parsed JSON value.  Of a number the client can only observe the
    truthiness, so an integer stands for it ([0] for a zero). *)
Inductive json :=
| JNull
| JBool (b : bool)
| JNum (n : Z)
| JStr (s : jsstring)
| JArr (items : list json)
| JObj (fields : list (jsstring * json)).

Inductive exn :=
| NetworkError
| SyntaxError
| TypeError.

(** Normal or abrupt completion. *)
Inductive completion (A : Type) :=
| Return (a : A)
| Throw (e : exn).
Arguments Return {A} a.
Arguments Throw {A} e.

(** What the client does to the outside, in order. *)
Inductive event :=
| ConsoleWarn
| ConsoleError (e : exn)
| Request (contents : jsstring).

(** A step of the [try] block: a completion and the events so far. *)
Definition step (A : Type) : Type := completion A * list event.

Definition unit_ {A} (a : A) : step A := (Return a, []).
Definition emit (ev : event) : step unit := (Return tt, [ev]).
Definition lift {A} (c : completion A) : step A := (c, []).
Definition andThen {A B} (m : step A) (k : A -> step B) : step B :=
  match m with
  | (Return a, tr) => let (c, tr') := k a in (c, tr ++ tr')
  | (Throw e, tr) => (Throw e, tr)
  end.

(** [try { body } catch (error) { handler error }]. *)
Definition tryCatch {A} (body : step A) (handler : exn -> step A) : step A :=
  match body with
  | (Return a, tr) => (Return a, tr)
  | (Throw e, tr) => let (c, tr') := handler e in (c, tr ++ tr')
  end.

Definition truthyText (t : option jsstring) : bool :=
  match t with Some s => truthy s | None => false end.

Definition truthyJson (v : option json) : bool :=
  match v with
  | None | Some JNull => false
  | Some (JBool b) => b
  | Some (JNum n) => negb (n =? 0)
  | Some (JStr s) => truthy s
  | Some (JArr _) | Some (JObj _) => true
  end.

Fixpoint lookupField (k : jsstring) (fields : list (jsstring * json))
    : option json :=
  match fields with
  | [] => None
  | (k', v) :: rest => if eqs k' k then Some v else lookupField k rest
  end.

(** [result.subtasks]: a [TypeError] on [null], [undefined] where there is
    no such property. *)
Definition getSubtasks (result : json) : completion (option json) :=
  match result with
  | JNull => Throw TypeError
  | JObj fields => Return (lookupField (str "subtasks") fields)
  | _ => Return None
  end.

Definition quote : jsstring := [34%N].

(** The [contents] template of the request. *)
Definition contentsFor (taskText : jsstring) : jsstring :=
  str "Break down the following task into smaller, actionable steps: "
    ++ quote ++ taskText ++ quote
    ++ str ". keep it brief and direct. Language: Thai.".

Section Client.
(** [process.env.API_KEY]. *)
Variable API_KEY : option jsstring.
(** The awaited [ai.models.generateContent] call, as a function of the
    request's [contents] (model and configuration are constants): the call
    rejects, or resolves to a response whose [text] is [undefined] or a
    string. *)
Variable generateContent : jsstring -> completion (option jsstring).
(** [JSON.parse]; it throws a [SyntaxError] on a malformed text. *)
Variable JSON_parse : jsstring -> completion json.

(** [process.env.API_KEY || '']. *)
Definition apiKey : jsstring :=
  if truthyText API_KEY then default [] API_KEY else [].

Definition emptyList : json := JArr [].

Definition suggestSubtasks (taskText : jsstring) : step json :=
  if negb (truthy apiKey) then
    andThen (emit ConsoleWarn) (fun _ => unit_ emptyList)
  else
    tryCatch
      (andThen (emit (Request (contentsFor taskText))) (fun _ =>
       andThen (lift (generateContent (contentsFor taskText))) (fun jsonText =>
       if negb (truthyText jsonText) then unit_ emptyList
       else
         andThen (lift (JSON_parse (default [] jsonText))) (fun result =>
         andThen (lift (getSubtasks result)) (fun subtasks =>
         unit_ (if truthyJson subtasks then default emptyList subtasks
                else emptyList))))))
      (fun error =>
         andThen (emit (ConsoleError error)) (fun _ => unit_ emptyList)).

(** The failures of an attempted call, by the point where it fails. *)
Inductive failed (taskText : jsstring) : Prop :=
| network_error (e : exn) :
    generateContent (contentsFor taskText) = Throw e -> failed taskText
| missing_text (t : option jsstring) :
    generateContent (contentsFor taskText) = Return t ->
    truthyText t = false -> failed taskText
| unparsable_text (s : jsstring) (e : exn) :
    generateContent (contentsFor taskText) = Return (Some s) ->
    JSON_parse s = Throw e -> failed taskText
| null_result (s : jsstring) :
    generateContent (contentsFor taskText) = Return (Some s) ->
    JSON_parse s = Return JNull -> failed taskText
| no_subtasks (s : jsstring) (v : json) (field : option json) :
    generateContent (contentsFor taskText) = Return (Some s) ->
    JSON_parse s = Return v -> getSubtasks v = Return field ->
    truthyJson field = false -> failed taskText
| empty_subtasks (s : jsstring) (v : json) :
    generateContent (contentsFor taskText) = Return (Some s) ->
    JSON_parse s = Return v -> getSubtasks v = Return (Some (JArr [])) ->
    failed taskText.
End Client.

End Gemini.

(** ** The calendar of a browser whose time zone is UTC

    Days are counted from 1970-01-01 in the proleptic Gregorian calendar. *)

Module UTC.

Definition msPerDay : Z := 86400000.

Definition daysFromCivil (y m d : Z) : Z :=
  let y := if m <=? 2 then y - 1 else y in
  let era := y / 400 in
  let yoe := y - era * 400 in
  let doy := (153 * (if 2 <? m then m - 3 else m + 9) + 2) / 5 + d - 1 in
  let doe := yoe * 365 + yoe / 4 - yoe / 100 + doy in
  era * 146097 + doe - 719468.

(** Year, month (1 to 12) and day of a day number. *)
Definition civilFromDays (z : Z) : Z * Z * Z :=
  let z := z + 719468 in
  let era := z / 146097 in
  let doe := z - era * 146097 in
  let yoe := (doe - doe / 1460 + doe / 36524 - doe / 146096) / 365 in
  let doy := doe - (365 * yoe + yoe / 4 - yoe / 100) in
  let mp := (5 * doy + 2) / 153 in
  let d := doy - (153 * mp + 2) / 5 + 1 in
  let m := if mp <? 10 then mp + 3 else mp - 9 in
  (if m <=? 2 then yoe + era * 400 + 1 else yoe + era * 400, m, d).

Definition civil (ts : Z) : Z * Z * Z := civilFromDays (ts / msPerDay).

(** [s.split('-')]. *)
Fixpoint splitDash (s : jsstring) : list jsstring :=
  match s with
  | [] => [[]]
  | c :: s' =>
      if (c =? 45)%N then [] :: splitDash s'
      else match splitDash s' with
           | [] => [[c]]
           | p :: ps => (c :: p) :: ps
           end
  end.

(** [Number] on a string of decimal digits. *)
Definition NumberOf (s : jsstring) : Z :=
  List.fold_left (fun acc c => 10 * acc + (Z.of_N c - 48)) s 0.

(** [new Date(y, monthIndex, d).getTime()]: years 0 to 99 stand for
    1900 to 1999, and a month index out of range carries into the year. *)
Definition DateOf (y monthIndex d : Z) : Z :=
  let y := if (0 <=? y) && (y <=? 99) then 1900 + y else y in
  let ym := y + monthIndex / 12 in
  let mn := monthIndex mod 12 in
  (daysFromCivil ym (mn + 1) 1 + d - 1) * msPerDay.

(** Defined on the values of a date input, [YYYY-MM-DD]. *)
Definition fromInput (s : jsstring) : Z :=
  match List.map NumberOf (splitDash s) with
  | y :: m :: d :: _ => DateOf y (m - 1) d
  | _ => 0
  end.

#[export] Instance calendar : Calendar := {|
  getFullYear ts := fst (fst (civil ts));
  getMonth ts := snd (fst (civil ts)) - 1;
  getDate ts := snd (civil ts);
  dateFromInput := fromInput
|}.

End UTC.

(** ** Dates of the Gregorian calendar, and the strings of a date input *)

Module Gregorian.

Definition isLeap (y : Z) : bool :=
  (y mod 4 =? 0) && (negb (y mod 100 =? 0) || (y mod 400 =? 0)).

Definition daysInMonth (y m : Z) : Z :=
  if m =? 2 then (if isLeap y then 29 else 28)
  else if (m =? 4) || (m =? 6) || (m =? 9) || (m =? 11) then 30
  else 31.

Definition validDate (y m d : Z) : Prop :=
  1 <= m <= 12 /\ 1 <= d <= daysInMonth y m.

(** A decimal digit, as a code unit. *)
Definition isDigit (c : N) : Prop := (48 <= c <= 57)%N.

(** The value [YYYY-MM-DD] of a date input, from its three fields. *)
Definition dateString (ys ms ds : jsstring) : jsstring :=
  ys ++ str "-" ++ ms ++ str "-" ++ ds.

(** The dates of a window of four hundred years on which the two
    conversions of [UTC] are checked by evaluation. *)
Definition roundTrips (y m d : Z) : bool :=
  match UTC.civilFromDays (UTC.daysFromCivil y m d) with
  | (y', m', d') => (y' =? y) && (m' =? m) && (d' =? d)
  end.

Definition range (first : Z) (count : nat) : list Z :=
  List.map (fun k => first + Z.of_nat k) (List.seq 0 count).

Definition checkedDate (y m d : Z) : bool :=
  negb (d <=? daysInMonth y m) || roundTrips y m d.

End Gregorian.

(** ** States of the store *)

Definition textOk (t : Task) : Prop := trim (text t) <> [].

(** What a user can do to the store: the four operations, the edit through
    an item's [handleSave], and a rendering, which runs the pipeline on the
    store's array. *)
Inductive action :=
| Add (uuid : jsstring) (now : Z) (txt : jsstring) (dateStr : option jsstring)
| Toggle (i : jsstring)
| Delete (i : jsstring)
| Save (task : Task) (st : ItemState)
| Render (filter : FilterType) (filterDate : jsstring).

Definition perform `{Calendar} (a : action) (l : list Task) : list Task :=
  match a with
  | Add uuid now txt dateStr => addTask uuid now txt dateStr l
  | Toggle i => toggleTask i l
  | Delete i => deleteTask i l
  | Save task st => snd (handleSave task st l)
  | Render filter filterDate => tasksAfter l filter filterDate
  end.

Inductive reachable `{Calendar} : list Task -> Prop :=
| reach_init : reachable []
| reach_step (l : list Task) (a : action) :
    reachable l -> reachable (perform a l).

(** ** Concrete stores, in a browser on UTC *)

Module Examples.
Import UTC.

Definition milk : Task :=
  {| id := str "a1"; text := str "Buy milk"; completed := false;
     createdAt := 1000; dueDate := Some 86400000 |}.

(** [add("Plan trip", "2024-07-01")] then [add("Book flight")]. *)
Definition trip : Task :=
  {| id := str "u1"; text := str "Plan trip"; completed := false;
     createdAt := 1719800000000; dueDate := Some 1719792000000 |}.
Definition flight : Task :=
  {| id := str "u2"; text := str "Book flight"; completed := false;
     createdAt := 1719800000500; dueDate := None |}.
Definition tripStore : list Task :=
  addTask (str "u2") 1719800000500 (str "Book flight") None
    (addTask (str "u1") 1719800000000 (str "Plan trip")
       (Some (str "2024-07-01")) []).

(** [add("Pay rent", "1970-01-01")] then [add("Call home")]: on UTC the
    local midnight of 1970-01-01 is the time value [0]. *)
Definition rent : Task :=
  {| id := str "u1"; text := str "Pay rent"; completed := false;
     createdAt := 5000; dueDate := Some 0 |}.
Definition call : Task :=
  {| id := str "u2"; text := str "Call home"; completed := false;
     createdAt := 6000; dueDate := None |}.
Definition rentStore : list Task :=
  addTask (str "u2") 6000 (str "Call home") None
    (addTask (str "u1") 5000 (str "Pay rent") (Some (str "1970-01-01")) []).

Definition done1 : Task :=
  {| id := str "d1"; text := str "Done early"; completed := true;
     createdAt := 9000; dueDate := Some 86400000 |}.
Definition mixed : list Task := [done1; flight; trip].

End Examples.

(** ** The rest of the task item component *)

Module TaskItem.
Section TaskItem.
Context `{Calendar}.

(** [handleKeyDown] of the edit fields: [key] is [e.key]. *)
Definition handleKeyDown (key : jsstring) (task : Task) (st : ItemState)
    (tasks : list Task) : ItemState * list Task :=
  let (st1, tasks1) :=
    if eqs key (str "Enter") then handleSave task st tasks else (st, tasks) in
  if eqs key (str "Escape") then
    ({| isEditing := false; editText := text task;
        editDate := getInputValue (dueDate task) |}, tasks1)
  else (st1, tasks1).

(** The state of an item when its editor is opened: the fields still hold
    what [useState(task.text)] and [useState(getInputValue(task.dueDate))]
    put there. *)
Definition opened (task : Task) : ItemState :=
  {| isEditing := true; editText := text task;
     editDate := getInputValue (dueDate task) |}.

End TaskItem.
End TaskItem.

(** ** The rest of the application component ([src/App.tsx]) *)

Module App.

Record State := mkState {
  tasks : list Task;
  newTaskText : jsstring;
  newTaskDate : jsstring;
  filter : FilterType;
  filterDate : jsstring;
  isAiLoading : bool
}.

(** What the component writes to the console, besides the client's own
    events. *)
Inductive log :=
| Client (ev : Gemini.event)
| BreakdownFailed (e : Gemini.exn).

(** The statistics of the header. *)
Definition completedCount (l : list Task) : nat :=
  List.length (List.filter completed l).
Definition totalCount (l : list Task) : nat := List.length l.

Section App.
Context `{Calendar}.

(** [getTodayDate()], [today] being the time value of [new Date()]. *)
Definition getTodayDate (today : Z) : jsstring := localDay today.

(** [handleAddTask]: [uuid] and [now] are drawn by [addTask], [today] by
    [getTodayDate]. *)
Definition handleAddTask (uuid : jsstring) (now today : Z) (s : State)
    : State :=
  {| tasks := addTask uuid now (newTaskText s) (Some (newTaskDate s)) (tasks s);
     newTaskText := [];
     newTaskDate := getTodayDate today;
     filter := filter s; filterDate := filterDate s;
     isAiLoading := isAiLoading s |}.

(** [handleKeyDown] of the new-task field. *)
Definition handleKeyDown (key : jsstring) (uuid : jsstring) (now today : Z)
    (s : State) : State :=
  if eqs key (str "Enter") then handleAddTask uuid now today s else s.

Section Breakdown.
(** The client's platform, as in [Gemini.suggestSubtasks]. *)
Variable API_KEY : option jsstring.
Variable generateContent : jsstring -> Gemini.completion (option jsstring).
Variable JSON_parse : jsstring -> Gemini.completion Gemini.json.
(** The string that a template literal makes of a value that is not a
    string. *)
Variable String_json : Gemini.json -> jsstring.
(** The values that the [n]-th call of [addTask] draws from
    [crypto.randomUUID()] and [Date.now()]. *)
Variable draw : nat -> jsstring * Z.

(** The template [`↳ ${sub}`]; the arrow is U+21B3. *)
Definition subtaskText (sub : Gemini.json) : jsstring :=
  [8627%N; 32%N] ++ match sub with
                    | Gemini.JStr s => s
                    | _ => String_json sub
                    end.

(** Whether the component renders right after the [n]-th call of
    [addTask], for the calls that follow the await: a root that batches
    the updates of one continuation renders after none of them but once at
    the end, a root that does not renders after each. *)
Variable renders : nat -> bool.

(** [suggestions.forEach(sub => addTask(`↳ ${sub}`))], the first call of
    [addTask] being the [n]-th of the handler; [f] and [fd] are the filters
    of the component.  A rendering runs the pipeline on the array that the
    update has put into the state. *)
Fixpoint addSubtasks (f : FilterType) (fd : jsstring) (n : nat)
    (subs : list Gemini.json) (l : list Task) : list Task :=
  match subs with
  | [] => l
  | sub :: rest =>
      let l1 := addTask (fst (draw n)) (snd (draw n)) (subtaskText sub)
                  None l in
      addSubtasks f fd (S n) rest
        (if renders n then tasksAfter l1 f fd else l1)
  end.

(** [handleAiBreakdown], with nothing else updating the state while the
    client is awaited.  At the [await] the handler is suspended and the
    component renders the store with the main task in it: the pipeline
    runs on the new array of the state before the subtasks are put in
    front of it.  [forEach] is a method of arrays only: on another value
    the call throws a [TypeError], caught by the handler.  The result is
    the state when the handler has finished, before the rendering that
    follows. *)
Definition handleAiBreakdown (today : Z) (s : State) : State * list log :=
  if negb (truthy (trim (newTaskText s))) then (s, [])
  else
    let added := addTask (fst (draw 0%nat)) (snd (draw 0%nat))
                   (newTaskText s) (Some (newTaskDate s)) (tasks s) in
    let shown := tasksAfter added (filter s) (filterDate s) in
    let (suggestions, events) :=
      Gemini.suggestSubtasks API_KEY generateContent JSON_parse
        (newTaskText s) in
    match suggestions with
    | Gemini.Return (Gemini.JArr subs) =>
        ({| tasks := addSubtasks (filter s) (filterDate s) 1%nat subs shown;
            newTaskText := [];
            newTaskDate := getTodayDate today;
            filter := filter s; filterDate := filterDate s;
            isAiLoading := false |},
         List.map Client events)
    | Gemini.Return _ =>
        ({| tasks := shown;
            newTaskText := newTaskText s; newTaskDate := newTaskDate s;
            filter := filter s; filterDate := filterDate s;
            isAiLoading := false |},
         List.map Client events ++ [BreakdownFailed Gemini.TypeError])
    | Gemini.Throw e =>
        ({| tasks := shown;
            newTaskText := newTaskText s; newTaskDate := newTaskDate s;
            filter := filter s; filterDate := filterDate s;
            isAiLoading := false |},
         List.map Client events ++ [BreakdownFailed e])
    end.
End Breakdown.
End App.
End App.

(** An action does not reuse an identifier: the draw of an [Add] is not the
    id of a task of the store. *)
Definition freshFor (a : action) (l : list Task) : Prop :=
  match a with
  | Add uuid _ _ _ => ~ In uuid (List.map id l)
  | _ => True
  end.

(** More stores for the examples below. *)
Module MoreExamples.

(** Two tasks due on 1970-01-02, created one after the other. *)
Definition tea : Task :=
  {| id := str "a2"; text := str "Buy tea"; completed := false;
     createdAt := 2000; dueDate := Some 86400000 |}.
Definition sameDay : list Task := [Examples.milk; tea].

Definition typing : ItemState :=
  {| isEditing := true; editText := str "Buy oat milk"; editDate := [] |}.

(** A service that answers with a fixed text, and a parser that knows that
    one text, an object whose [subtasks] are [Book] and [Pack]. *)
Definition answer : jsstring := str "{subtasks:[Book,Pack]}".
Definition service (contents : jsstring)
    : Gemini.completion (option jsstring) :=
  Gemini.Return (Some answer).
Definition parser (s : jsstring) : Gemini.completion Gemini.json :=
  if eqs s answer then
    Gemini.Return (Gemini.JObj
      [(str "subtasks",
        Gemini.JArr [Gemini.JStr (str "Book"); Gemini.JStr (str "Pack")])])
  else Gemini.Throw Gemini.SyntaxError.
Definition draws (n : nat) : jsstring * Z :=
  (String_of (Z.of_nat n), 7000 + Z.of_nat n).

Definition form : App.State :=
  {| App.tasks := [Examples.milk]; App.newTaskText := str " Plan trip ";
     App.newTaskDate := str "2024-07-01"; App.filter := ALL;
     App.filterDate := []; App.isAiLoading := false |}.

Definition blank : App.State :=
  {| App.tasks := [Examples.milk]; App.newTaskText := str "  ";
     App.newTaskDate := str "2024-07-01"; App.filter := ALL;
     App.filterDate := []; App.isAiLoading := false |}.

End MoreExamples.

(** * Properties *)

(** ** Trimming *)

Section TrimFacts.

Lemma trimStart_head (s : jsstring) :
  match trimStart s with
  | [] => True
  | c :: _ => is_ws c = false
  end.
Proof.
  induction s as [|c s IH]; simpl; [exact I|].
  destruct (is_ws c) eqn:E; [exact IH | exact E].
Qed.

Lemma trimStart_fix (s : jsstring) :
  match s with [] => True | c :: _ => is_ws c = false end ->
  trimStart s = s.
Proof. destruct s as [|c s]; simpl; [reflexivity|]. now intros ->. Qed.

(** [trimEnd] keeps the first code unit of whatever it leaves. *)
Lemma trimEnd_head (s : jsstring) :
  match trimEnd s, s with
  | [], _ => True
  | c :: _, c' :: _ => c = c'
  | _ :: _, [] => False
  end.
Proof.
  destruct s as [|c s]; simpl; [exact I|].
  destruct (trimEnd s); [destruct (is_ws c)|]; easy.
Qed.

Lemma trimEnd_idem (s : jsstring) : trimEnd (trimEnd s) = trimEnd s.
Proof.
  induction s as [|c s IH]; simpl; [reflexivity|].
  destruct (trimEnd s) as [|d r] eqn:E.
  - destruct (is_ws c) eqn:W; simpl; [reflexivity | now rewrite W].
  - simpl in *. rewrite IH. reflexivity.
Qed.

Lemma trim_idem (s : jsstring) : trim (trim s) = trim s.
Proof.
  unfold trim.
  rewrite (trimStart_fix (trimEnd (trimStart s))).
  - apply trimEnd_idem.
  - pose proof (trimEnd_head (trimStart s)) as Hh.
    pose proof (trimStart_head s) as Hs.
    destruct (trimEnd (trimStart s)) as [|c r]; [exact I|].
    destruct (trimStart s) as [|c' r']; [contradiction|]. now subst.
Qed.

Lemma truthy_false (s : jsstring) : truthy s = false <-> s = [].
Proof. destruct s; simpl; split; congruence. Qed.

Lemma truthy_true (s : jsstring) : truthy s = true <-> s <> [].
Proof. destruct s; simpl; split; congruence. Qed.

End TrimFacts.

(** ** The sort *)

Section SortFacts.
Context {A : Type} (cmp : A -> A -> Z).

Lemma insert_perm (x : A) (l : list A) : Permutation (x :: l) (insert cmp x l).
Proof.
  induction l as [|y l IH]; simpl; [reflexivity|].
  destruct (cmp x y <=? 0); [reflexivity|].
  rewrite perm_swap. now apply perm_skip.
Qed.

Lemma sort_perm (l : list A) : Permutation l (sort cmp l).
Proof.
  induction l as [|x l IH]; simpl; [reflexivity|].
  rewrite <- insert_perm. now apply perm_skip.
Qed.

Lemma sort_In (l : list A) (x : A) : In x (sort cmp l) <-> In x l.
Proof.
  split; apply Permutation_in; [symmetry|]; apply sort_perm.
Qed.

Lemma sort_length (l : list A) : List.length (sort cmp l) = List.length l.
Proof. symmetry. apply Permutation_length, sort_perm. Qed.

Lemma insert_sorted (x : A) (l : list A) :
  consistent cmp -> StronglySorted (notAfter cmp) l ->
  StronglySorted (notAfter cmp) (insert cmp x l).
Proof.
  intros [Htot Htr]. induction 1 as [|y l Hs IH Hall]; simpl.
  - repeat constructor.
  - destruct (cmp x y <=? 0) eqn:E.
    + apply Z.leb_le in E. constructor; [now constructor|].
      constructor; [exact E|].
      eapply List.Forall_impl; [|exact Hall]. intros z Hz. now apply Htr with y.
    + apply Z.leb_gt in E. constructor; [exact IH|].
      apply List.Forall_forall. intros z Hz.
      apply (Permutation_in _ (Permutation_sym (insert_perm x l))) in Hz.
      destruct Hz as [<-|Hz].
      * destruct (Htot x y) as [Hxy|Hyx]; [unfold notAfter in Hxy; lia | exact Hyx].
      * rewrite List.Forall_forall in Hall. now apply Hall.
Qed.

Lemma sort_sorted (l : list A) :
  consistent cmp -> StronglySorted (notAfter cmp) (sort cmp l).
Proof.
  intros Hc. induction l as [|x l IH]; simpl; [constructor|].
  now apply insert_sorted.
Qed.

(** The sort is stable: tasks that the comparator does not tell apart keep
    the order they had. *)
Lemma insert_filter (q : A -> bool) (x : A) (l : list A) :
  (forall y, q x = true -> q y = true -> cmp x y <= 0) ->
  List.filter q (insert cmp x l) = List.filter q (x :: l).
Proof.
  intros Hq. induction l as [|y l IH]; [reflexivity|].
  simpl insert. destruct (cmp x y <=? 0) eqn:E; [reflexivity|].
  apply Z.leb_gt in E. simpl in *. rewrite IH.
  destruct (q x) eqn:Hx, (q y) eqn:Hy; try reflexivity.
  specialize (Hq y eq_refl Hy). lia.
Qed.

Lemma sort_stable (q : A -> bool) (l : list A) :
  (forall x y, q x = true -> q y = true -> cmp x y <= 0) ->
  List.filter q (sort cmp l) = List.filter q l.
Proof.
  intros Hq. induction l as [|x l IH]; [reflexivity|].
  change (sort cmp (x :: l)) with (insert cmp x (sort cmp l)).
  rewrite insert_filter by (intros y; apply Hq).
  simpl. now rewrite IH.
Qed.

End SortFacts.

(** ** The pipeline as a function on lists *)

Section HeapFacts.

Lemma contents_insert_eq (h : heap) (a : loc) (l : list Task) :
  contents (<[a := l]> h) a = l.
Proof. unfold contents. now rewrite lookup_insert_eq. Qed.

Lemma contents_insert_ne (h : heap) (a b : loc) (l : list Task) :
  a <> b -> contents (<[a := l]> h) b = contents h b.
Proof. intros Hne. unfold contents. now rewrite lookup_insert_ne. Qed.

(** [filter] returns an array that did not exist before and leaves every
    other array as it was. *)
Lemma Array_filter_spec (p : Task -> bool) (a : loc) (h : heap) :
  exists r, h !! r = None /\
    Array_filter p a h = (r, <[r := List.filter p (contents h a)]> h).
Proof.
  exists (fresh (dom h)). split; [|reflexivity].
  apply not_elem_of_dom, is_fresh.
Qed.

Lemma allocated_ne (h : heap) (a r : loc) (l : list Task) :
  h !! a = Some l -> h !! r = None -> r <> a.
Proof. intros Ha Hr ->. congruence. Qed.

End HeapFacts.

Section PipelineFacts.
Context `{Calendar}.

(** The heap after the pipeline ran on a heap [h] whose array [tasks] holds
    [l]: the result array holds the sorted selection; [tasks] is that very
    array when no step made a new one. *)
Lemma filteredTasks_spec (h : heap) (tasks : loc) (l : list Task)
    (filter : FilterType) (filterDate : jsstring) :
  h !! tasks = Some l ->
  let out := filteredTasks tasks filter filterDate h in
  contents (snd out) (fst out)
    = sort (compareTasks filter filterDate) (dateStep filterDate (statusStep filter l))
  /\ contents (snd out) tasks
    = (if isALL filter && negb (truthy filterDate)
       then sort (compareTasks filter filterDate) l else l)
  /\ (fst out = tasks <-> isALL filter && negb (truthy filterDate) = true).
Proof.
  intros Hl out.
  assert (Hc : contents h tasks = l) by (unfold contents; now rewrite Hl).
  subst out. unfold filteredTasks, Heap.bind, Heap.ret, Array_sort, dateStep.
  destruct filter; cbv beta iota;
    [| destruct (Array_filter_spec (fun t => negb (completed t)) tasks h)
         as (r & Hr & ->)
     | destruct (Array_filter_spec completed tasks h) as (r & Hr & ->) ];
    try pose proof (allocated_ne _ _ _ _ Hl Hr) as Hne;
    cbv beta iota; destruct (truthy filterDate) eqn:Ef.
  - (* ALL, with a date filter *)
    destruct (Array_filter_spec (dateMatches filterDate) tasks h) as (r & Hr & ->).
    pose proof (allocated_ne _ _ _ _ Hl Hr) as Hne.
    cbn [fst snd isALL andb statusStep].
    rewrite !contents_insert_eq, !contents_insert_ne, Hc by exact Hne.
    repeat split; easy.
  - (* ALL, no date filter: the store's own array is sorted *)
    cbn [fst snd isALL andb negb statusStep].
    rewrite !contents_insert_eq, Hc. repeat split; easy.
  - (* ACTIVE, with a date filter *)
    match goal with |- context [Array_filter ?p r ?h'] =>
      destruct (Array_filter_spec p r h') as (r' & Hr' & ->) end.
    assert (Hne' : r' <> tasks).
    { intros ->. rewrite lookup_insert_ne in Hr' by exact Hne. congruence. }
    cbn [fst snd isALL andb statusStep].
    rewrite !contents_insert_eq, !contents_insert_ne, Hc by assumption.
    repeat split; easy.
  - cbn [fst snd isALL andb statusStep].
    rewrite !contents_insert_eq, !contents_insert_ne, Hc by assumption.
    repeat split; easy.
  - (* COMPLETED, with a date filter *)
    match goal with |- context [Array_filter ?p r ?h'] =>
      destruct (Array_filter_spec p r h') as (r' & Hr' & ->) end.
    assert (Hne' : r' <> tasks).
    { intros ->. rewrite lookup_insert_ne in Hr' by exact Hne. congruence. }
    cbn [fst snd isALL andb statusStep].
    rewrite !contents_insert_eq, !contents_insert_ne, Hc by assumption.
    repeat split; easy.
  - cbn [fst snd isALL andb statusStep].
    rewrite !contents_insert_eq, !contents_insert_ne, Hc by assumption.
    repeat split; easy.
Qed.

Lemma store_lookup (l : list Task) : store l !! 0%nat = Some l.
Proof. apply lookup_singleton_eq. Qed.

Lemma derived_eq (l : list Task) (filter : FilterType) (filterDate : jsstring) :
  derived l filter filterDate
  = sort (compareTasks filter filterDate)
      (dateStep filterDate (statusStep filter l)).
Proof.
  unfold derived.
  pose proof (filteredTasks_spec (store l) 0%nat l filter filterDate
                (store_lookup l)) as (Hd & _).
  destruct (filteredTasks 0%nat filter filterDate (store l)). exact Hd.
Qed.

Lemma tasksAfter_eq (l : list Task) (filter : FilterType) (filterDate : jsstring) :
  tasksAfter l filter filterDate
  = if isALL filter && negb (truthy filterDate)
    then sort (compareTasks filter filterDate) l else l.
Proof.
  unfold tasksAfter.
  pose proof (filteredTasks_spec (store l) 0%nat l filter filterDate
                (store_lookup l)) as (_ & Ht & _).
  destruct (filteredTasks 0%nat filter filterDate (store l)). exact Ht.
Qed.

End PipelineFacts.

(** ** Sorting a list that a flag splits in two groups *)

Section SortSplit.
Context {A : Type} (cmp cmpK : A -> A -> Z) (p : A -> bool).
(** Within a group [cmp] is [cmpK]; across groups the flag decides. *)
Hypothesis same_group : forall x y, p x = p y -> cmp x y = cmpK x y.
Hypothesis low_high : forall x y, p x = false -> p y = true -> cmp x y <= 0.
Hypothesis high_low : forall x y, p x = true -> p y = false -> 0 < cmp x y.

Lemma insert_low (x : A) (lo hi : list A) :
  p x = false ->
  Forall (fun y => p y = false) lo -> Forall (fun y => p y = true) hi ->
  insert cmp x (lo ++ hi) = insert cmpK x lo ++ hi.
Proof.
  intros Hx Hlo Hhi. induction Hlo as [|y lo Hy _ IH]; simpl.
  - destruct Hhi as [|z hi Hz _]; simpl; [reflexivity|].
    pose proof (low_high x z Hx Hz) as Hle.
    apply Z.leb_le in Hle. now rewrite Hle.
  - rewrite same_group by congruence.
    destruct (cmpK x y <=? 0); [reflexivity|]. now rewrite IH.
Qed.

Lemma insert_high (x : A) (lo hi : list A) :
  p x = true ->
  Forall (fun y => p y = false) lo -> Forall (fun y => p y = true) hi ->
  insert cmp x (lo ++ hi) = lo ++ insert cmpK x hi.
Proof.
  intros Hx Hlo Hhi. induction Hlo as [|y lo Hy _ IH]; simpl.
  - clear low_high high_low.
    induction Hhi as [|z hi Hz _ IHh]; simpl; [reflexivity|].
    rewrite same_group by congruence.
    destruct (cmpK x z <=? 0); [reflexivity|]. now rewrite IHh.
  - pose proof (high_low x y Hx Hy) as Hlt.
    apply Z.leb_gt in Hlt. now rewrite Hlt, IH.
Qed.

Lemma sort_filter_all (q : A -> bool) (l : list A) :
  Forall (fun y => q y = true) (sort cmpK (List.filter q l)).
Proof.
  apply List.Forall_forall. intros y Hy.
  apply sort_In, List.filter_In in Hy. tauto.
Qed.

Lemma sort_split (l : list A) :
  sort cmp l
  = sort cmpK (List.filter (fun x => negb (p x)) l)
      ++ sort cmpK (List.filter p l).
Proof.
  induction l as [|x l IH]; [reflexivity|].
  change (sort cmp (x :: l)) with (insert cmp x (sort cmp l)). rewrite IH.
  assert (Hlo : Forall (fun y => p y = false)
                  (sort cmpK (List.filter (fun x => negb (p x)) l))).
  { eapply List.Forall_impl; [|apply sort_filter_all].
    intros y Hy. simpl in Hy. now apply negb_true_iff. }
  pose proof (sort_filter_all p l) as Hhi.
  simpl List.filter. destruct (p x) eqn:Hx; simpl negb; cbv iota.
  - now apply insert_high.
  - now apply insert_low.
Qed.

End SortSplit.

Lemma insert_ext {A : Type} (c1 c2 : A -> A -> Z) (x : A) (s : list A) :
  (forall y, In y s -> c1 x y = c2 x y) ->
  insert c1 x s = insert c2 x s.
Proof.
  induction s as [|y s IHs]; intros Hin; simpl; [reflexivity|].
  rewrite <- Hin by now left.
  destruct (c1 x y <=? 0); [reflexivity|].
  f_equal. apply IHs. intros; apply Hin; now right.
Qed.

Lemma sort_ext {A : Type} (c1 c2 : A -> A -> Z) (l : list A) :
  (forall x y, In x l -> In y l -> c1 x y = c2 x y) ->
  sort c1 l = sort c2 l.
Proof.
  induction l as [|x l IH]; intros Hext; [reflexivity|].
  simpl. rewrite <- IH by (intros; apply Hext; now right).
  apply insert_ext.
  intros y Hy. apply Hext; [now left | right; now apply sort_In in Hy].
Qed.

Lemma StronglySorted_lookup {A : Type} (R : A -> A -> Prop) (l : list A) :
  StronglySorted R l ->
  forall (i j : nat) (x y : A),
    l !! i = Some x -> l !! j = Some y -> (i < j)%nat -> R x y.
Proof.
  induction 1 as [|a l Hs IH Hall]; intros i j x y Hi Hj Hlt.
  - discriminate.
  - destruct j as [|j]; [lia|]. simpl in Hj. destruct i as [|i]; simpl in Hi.
    + injection Hi as <-. rewrite List.Forall_forall in Hall.
      apply Hall. apply list_elem_of_In. now apply list_elem_of_lookup_2 with j.
    + apply (IH i j); [assumption..|lia].
Qed.

(** ** The comparator *)

Section CompareFacts.
Context `{Calendar}.

Ltac cases_cmp :=
  unfold compareTasks, notAfter;
  repeat match goal with
  | |- context [completed ?t] => destruct (completed t)
  | |- context [truthyNum (dueDate ?t)] =>
      generalize (valueOf (dueDate t)); destruct (truthyNum (dueDate t)); intros ?
  | |- context [truthy ?s] => destruct (truthy s)
  | |- context [isALL ?f] => destruct (isALL f)
  end; simpl; try lia.

Lemma compareTasks_antisym (filter : FilterType) (filterDate : jsstring)
    (a b : Task) :
  compareTasks filter filterDate b a = - compareTasks filter filterDate a b.
Proof. cases_cmp. Qed.

Lemma compareTasks_consistent (filter : FilterType) (filterDate : jsstring) :
  consistent (compareTasks filter filterDate).
Proof.
  split.
  - intros x y. cases_cmp.
  - intros x y z. cases_cmp.
Qed.

Lemma derived_sorted (l : list Task) (filter : FilterType)
    (filterDate : jsstring) :
  StronglySorted (notAfter (compareTasks filter filterDate))
    (derived l filter filterDate).
Proof. rewrite derived_eq. apply sort_sorted, compareTasks_consistent. Qed.

End CompareFacts.

(** ** C1: an edit to the empty text *)

(** C1, as stated, fails on the store's operation: [editTask] called with
    the empty text stores it, and the new due date with it. *)
Lemma editTask_stores_empty_text :
  editTask (id Examples.milk) [] (Some 172800000) [Examples.milk]
    = [ {| id := str "a1"; text := []; completed := false;
           createdAt := 1000; dueDate := Some 172800000 |} ]
  /\ [] <> text Examples.milk
  /\ Some 172800000 <> dueDate Examples.milk.
Proof. repeat split; discriminate. Qed.

(** C1, amended: an edit whose text is empty once trimmed, saved through the
    item's [handleSave], never reaches the store; the task list is returned
    as it was, and the item's edit fields go back to the task's text and
    date. *)
Theorem handleSave_empty_reverts `{Calendar}
    (task : Task) (st : ItemState) (tasks : list Task) :
  trim (editText st) = [] ->
  handleSave task st tasks
  = ({| isEditing := false; editText := text task;
        editDate := getInputValue (dueDate task) |}, tasks).
Proof. intros He. unfold handleSave. now rewrite He. Qed.

Section OnUTC_C1.
Local Existing Instance UTC.calendar.

Lemma handleSave_empty_reverts_witness :
  trim (editText (mkItem true (str "   ") (str "2024-07-01"))) = []
  /\ handleSave Examples.milk (mkItem true (str "   ") (str "2024-07-01"))
       [Examples.milk]
     = ({| isEditing := false; editText := str "Buy milk";
           editDate := str "1970-01-02" |}, [Examples.milk]).
Proof.
  split; [reflexivity|].
  exact (handleSave_empty_reverts Examples.milk
           (mkItem true (str "   ") (str "2024-07-01")) [Examples.milk]
           eq_refl).
Defined.

End OnUTC_C1.

(** ** C2: the pipeline and the store's array *)

(** Every path that filters hands [sort] a new array: the store's array is
    left as it was. *)
Lemma tasksAfter_filtered `{Calendar}
    (l : list Task) (filter : FilterType) (filterDate : jsstring) :
  isALL filter && negb (truthy filterDate) = false ->
  tasksAfter l filter filterDate = l.
Proof. intros E. now rewrite tasksAfter_eq, E. Qed.

(** With [ALL] and no date filter no step makes a new array: [sort] is
    handed the store's array and sorts it in place. *)
Lemma tasksAfter_ALL_nodate `{Calendar} (l : list Task) :
  tasksAfter l ALL [] = derived l ALL [].
Proof. now rewrite tasksAfter_eq, derived_eq. Qed.

Section OnUTC_C2.
Local Existing Instance UTC.calendar.

(** C2 on the store [add("Plan trip", "2024-07-01"); add("Book flight")],
    filter [ALL], no date filter: the store's array held
    [Book flight; Plan trip] before the derivation and holds
    [Plan trip; Book flight] after it. *)
Theorem derivation_reorders_store :
  Examples.tripStore = [Examples.flight; Examples.trip]
  /\ derived Examples.tripStore ALL [] = [Examples.trip; Examples.flight]
  /\ tasksAfter Examples.tripStore ALL [] = [Examples.trip; Examples.flight]
  /\ tasksAfter Examples.tripStore ALL [] <> Examples.tripStore.
Proof.
  rewrite tasksAfter_eq, derived_eq. repeat split; discriminate.
Qed.

End OnUTC_C2.

(** ** C3: the order without a date filter *)

(** What the comparator gives for two rendered tasks of one group, where a
    task counts as dated when its [dueDate] is truthy. *)
Lemma derived_order_nodate `{Calendar}
    (l : list Task) (filter : FilterType) (i j : nat) (x y : Task) :
  derived l filter [] !! i = Some x ->
  derived l filter [] !! j = Some y ->
  (i < j)%nat ->
  (isALL filter = true -> completed x = completed y) ->
  (truthyNum (dueDate y) = true -> truthyNum (dueDate x) = true)
  /\ (truthyNum (dueDate x) = true -> truthyNum (dueDate y) = true ->
      valueOf (dueDate x) <= valueOf (dueDate y))
  /\ (truthyNum (dueDate x) = false -> truthyNum (dueDate y) = false ->
      createdAt y <= createdAt x).
Proof.
  intros Hi Hj Hlt Hgrp.
  pose proof (StronglySorted_lookup _ _ (derived_sorted l filter [])
                i j x y Hi Hj Hlt) as Hle.
  unfold notAfter, compareTasks in Hle. simpl truthy in Hle. cbv iota in Hle.
  destruct (isALL filter).
  - rewrite (Hgrp eq_refl), eqb_reflx in Hle. simpl in Hle.
    destruct (truthyNum (dueDate x)), (truthyNum (dueDate y));
      simpl in Hle; repeat split; intros; try congruence; lia.
  - simpl in Hle.
    destruct (truthyNum (dueDate x)), (truthyNum (dueDate y));
      simpl in Hle; repeat split; intros; try congruence; lia.
Qed.

Section OnUTC_C3.
Local Existing Instance UTC.calendar.

(** C3 on the store [add("Pay rent", "1970-01-01"); add("Call home")],
    filter [ALL], no date filter: [Pay rent] has a due date, the time value
    [0], and [Call home] has none, yet [Call home] is rendered first. *)
Theorem derived_epoch_due_date_last :
  Examples.rentStore = [Examples.call; Examples.rent]
  /\ dueDate Examples.rent = Some 0
  /\ dueDate Examples.call = None
  /\ derived Examples.rentStore ALL [] = [Examples.call; Examples.rent].
Proof. rewrite derived_eq. repeat split. Qed.

End OnUTC_C3.

(** ** C4 and C9: the groups of the [ALL] view *)

Lemma filter_comm {A : Type} (p q : A -> bool) (l : list A) :
  List.filter p (List.filter q l) = List.filter q (List.filter p l).
Proof.
  induction l as [|x l IH]; simpl; [reflexivity|].
  destruct (p x) eqn:Hp, (q x) eqn:Hq; simpl; rewrite ?Hp, ?Hq, IH; reflexivity.
Qed.

Section Groups.
Context `{Calendar}.

Lemma dateStep_filter (filterDate : jsstring) (q : Task -> bool)
    (l : list Task) :
  dateStep filterDate (List.filter q l)
  = List.filter q (dateStep filterDate l).
Proof.
  unfold dateStep. destruct (truthy filterDate); [apply filter_comm | reflexivity].
Qed.

(** The [ALL] view is the [ACTIVE] view followed by the [COMPLETED] view. *)
Lemma derived_ALL_split (l : list Task) (filterDate : jsstring) :
  derived l ALL filterDate
  = derived l ACTIVE filterDate ++ derived l COMPLETED filterDate.
Proof.
  rewrite !derived_eq. unfold statusStep. rewrite !dateStep_filter.
  apply (sort_split (compareTasks ALL filterDate)
           (compareTasks ACTIVE filterDate) completed).
  - intros x y E. unfold compareTasks. now rewrite E, eqb_reflx.
  - intros x y Hx Hy. unfold compareTasks. rewrite Hx, Hy. simpl. lia.
  - intros x y Hx Hy. unfold compareTasks. rewrite Hx, Hy. simpl. lia.
Qed.

Lemma derived_In (l : list Task) (filter : FilterType)
    (filterDate : jsstring) (t : Task) :
  In t (derived l filter filterDate)
  <-> In t (dateStep filterDate (statusStep filter l)).
Proof. rewrite derived_eq. apply sort_In. Qed.

Lemma derived_status (l : list Task) (filterDate : jsstring) :
  Forall (fun t => completed t = false) (derived l ACTIVE filterDate)
  /\ Forall (fun t => completed t = true) (derived l COMPLETED filterDate).
Proof.
  split; apply List.Forall_forall; intros t Ht; apply derived_In in Ht;
    unfold statusStep in Ht; rewrite dateStep_filter in Ht; apply List.filter_In in Ht;
    destruct Ht as [_ Ht]; [now apply negb_true_iff | exact Ht].
Qed.

(** C4: with the filter [ALL] the rendered list is the incomplete tasks
    followed by the completed ones, each group in the order it has on its
    own, with or without a date filter; so an incomplete task always stands
    strictly before a completed one, whatever their dates. *)
Theorem derived_ALL_incomplete_first (l : list Task) (filterDate : jsstring) :
  derived l ALL filterDate
    = derived l ACTIVE filterDate ++ derived l COMPLETED filterDate
  /\ Forall (fun t => completed t = false) (derived l ACTIVE filterDate)
  /\ Forall (fun t => completed t = true) (derived l COMPLETED filterDate)
  /\ forall (i j : nat) (x y : Task),
       derived l ALL filterDate !! i = Some x ->
       derived l ALL filterDate !! j = Some y ->
       completed x = false -> completed y = true -> (i < j)%nat.
Proof.
  split; [apply derived_ALL_split|].
  split; [apply derived_status|]. split; [apply derived_status|].
  intros i j x y Hi Hj Hx Hy.
  destruct (Nat.lt_trichotomy i j) as [Hlt|[->|Hgt]]; [exact Hlt| |].
  - congruence.
  - pose proof (StronglySorted_lookup _ _ (derived_sorted l ALL filterDate)
                  j i y x Hj Hi Hgt) as Hle.
    unfold notAfter, compareTasks in Hle. rewrite Hx, Hy in Hle.
    simpl in Hle. lia.
Qed.

(** C9: the [ACTIVE] view and the [COMPLETED] view together hold the tasks
    of the [ALL] view, each as many times. *)
Theorem derived_ACTIVE_COMPLETED_ALL (l : list Task) (filterDate : jsstring) :
  Permutation (derived l ACTIVE filterDate ++ derived l COMPLETED filterDate)
    (derived l ALL filterDate).
Proof. now rewrite derived_ALL_split. Qed.

End Groups.

Section OnUTC_C4.
Local Existing Instance UTC.calendar.

Lemma derived_ALL_incomplete_first_witness :
  derived Examples.mixed ALL [] !! 1%nat = Some Examples.flight
  /\ derived Examples.mixed ALL [] !! 2%nat = Some Examples.done1
  /\ completed Examples.flight = false
  /\ completed Examples.done1 = true
  /\ (1 < 2)%nat.
Proof.
  assert (H1 : derived Examples.mixed ALL [] !! 1%nat = Some Examples.flight)
    by (vm_compute; reflexivity).
  assert (H2 : derived Examples.mixed ALL [] !! 2%nat = Some Examples.done1)
    by (vm_compute; reflexivity).
  repeat split; try assumption.
  exact (proj2 (proj2 (proj2 (derived_ALL_incomplete_first Examples.mixed [])))
           1%nat 2%nat Examples.flight Examples.done1 H1 H2 eq_refl eq_refl).
Defined.

End OnUTC_C4.

(** ** C5: the date filter *)

Lemma statusStep_passes (filter : FilterType) (l : list Task) :
  statusStep filter l = List.filter (passes filter) l.
Proof.
  destruct filter; try reflexivity.
  simpl. induction l as [|t l IH]; simpl; congruence.
Qed.

(** What the pipeline keeps under a date filter: the tasks that pass the
    status filter, whose [dueDate] is truthy and is rendered, as a local
    day, to the very string of the filter. *)
Lemma derived_dateFilter `{Calendar}
    (l : list Task) (filter : FilterType) (filterDate : jsstring) :
  truthy filterDate = true ->
  Permutation (derived l filter filterDate)
    (List.filter (fun t =>
       passes filter t && truthyNum (dueDate t)
       && eqs (localDay (valueOf (dueDate t))) filterDate) l).
Proof.
  intros Hf. rewrite derived_eq, <- sort_perm. unfold dateStep. rewrite Hf.
  assert (E : forall q, List.filter (dateMatches filterDate) (List.filter q l)
    = List.filter (fun t => q t && truthyNum (dueDate t)
         && eqs (localDay (valueOf (dueDate t))) filterDate) l).
  { intros q. induction l as [|t l IH]; simpl; [reflexivity|].
    destruct (q t); simpl; rewrite ?IH; [|reflexivity].
    unfold dateMatches. destruct (truthyNum (dueDate t)); simpl; [|reflexivity].
    reflexivity. }
  rewrite (statusStep_passes filter l). now rewrite E.
Qed.

Section OnUTC_C5.
Local Existing Instance UTC.calendar.

(** C5 on the store [add("Pay rent", "1970-01-01"); add("Call home")] with
    the date filter [1970-01-01], filter [ALL]: [Pay rent] passes the status
    filter, has a due date, and that date's local day is the filter's day,
    yet nothing is kept. *)
Theorem derived_epoch_due_date_dropped :
  Examples.rentStore = [Examples.call; Examples.rent]
  /\ passes ALL Examples.rent = true
  /\ dueDate Examples.rent = Some 0
  /\ localDay 0 = str "1970-01-01"
  /\ derived Examples.rentStore ALL (str "1970-01-01") = [].
Proof. repeat split; vm_compute; reflexivity. Qed.

(** The rendering of a day writes the year without padding, a date input
    writes four digits: a task due in the year 999 is not kept by the filter
    of its own day. *)
Remark derived_year_999_dropped :
  let old := addTask (str "u1") 5000 (str "Old debt") (Some (str "0999-06-01")) [] in
  List.map (fun t => getInputValue (dueDate t)) old = [str "999-06-01"]
  /\ derived old ALL (str "0999-06-01") = [].
Proof. split; vm_compute; reflexivity. Qed.

End OnUTC_C5.

(** ** C6: adding a task *)

(** The two conversions of the UTC calendar agree on every date of the
    Gregorian calendar, and the value of a date input is read field by
    field. *)
Module GregorianFacts.
Import UTC Gregorian.

Lemma window_checked :
  forallb (fun y => forallb (fun m => forallb (checkedDate y m) (range 1 31))
                      (range 1 12)) (range 0 400) = true.
Proof. vm_compute. reflexivity. Qed.

Lemma days_shift (y m d k : Z) :
  daysFromCivil (y + 400 * k) m d = daysFromCivil y m d + 146097 * k.
Proof.
  unfold daysFromCivil. cbv zeta.
  destruct (m <=? 2).
  - replace (y + 400 * k - 1) with (y - 1 + k * 400) by ring.
    rewrite Z.div_add by lia.
    replace (y - 1 + k * 400 - ((y - 1) / 400 + k) * 400)
      with (y - 1 - (y - 1) / 400 * 400) by ring.
    ring.
  - replace (y + 400 * k) with (y + k * 400) by ring.
    rewrite Z.div_add by lia.
    replace (y + k * 400 - (y / 400 + k) * 400) with (y - y / 400 * 400) by ring.
    ring.
Qed.

Lemma civil_shift (z k : Z) :
  civilFromDays (z + 146097 * k)
  = (fst (fst (civilFromDays z)) + 400 * k, snd (fst (civilFromDays z)),
     snd (civilFromDays z)).
Proof.
  unfold civilFromDays. cbv zeta.
  replace (z + 146097 * k + 719468) with (z + 719468 + k * 146097) by ring.
  rewrite Z.div_add by lia.
  replace (z + 719468 + k * 146097 - ((z + 719468) / 146097 + k) * 146097)
    with (z + 719468 - (z + 719468) / 146097 * 146097) by ring.
  cbn [fst snd].
  match goal with |- context [if ?b then _ else _] => destruct b end;
    f_equal; f_equal; ring.
Qed.

Lemma In_range (first : Z) (count : nat) (z : Z) :
  first <= z < first + Z.of_nat count -> In z (range first count).
Proof.
  intros Hz. unfold range. apply in_map_iff.
  exists (Z.to_nat (z - first)). split; [lia|]. apply in_seq. lia.
Qed.

Lemma daysInMonth_le (y m : Z) : daysInMonth y m <= 31.
Proof.
  unfold daysInMonth.
  destruct (m =? 2); [destruct (isLeap y); lia|].
  destruct ((m =? 4) || (m =? 6) || (m =? 9) || (m =? 11)); lia.
Qed.

Lemma civil_days_window (y m d : Z) :
  0 <= y < 400 -> validDate y m d ->
  civilFromDays (daysFromCivil y m d) = (y, m, d).
Proof.
  intros Hy [Hm Hd]. pose proof (daysInMonth_le y m) as Hle.
  pose proof (proj1 (forallb_forall _ _) window_checked y
                (In_range 0 400 y ltac:(lia))) as Wy.
  pose proof (proj1 (forallb_forall _ _) Wy m
                (In_range 1 12 m ltac:(lia))) as Wm. clear Wy.
  pose proof (proj1 (forallb_forall _ _) Wm d
                (In_range 1 31 d ltac:(lia))) as Wd. clear Wm.
  unfold checkedDate in Wd. apply orb_prop in Wd as [Wd|Wd].
  - apply negb_true_iff, Z.leb_gt in Wd. lia.
  - unfold roundTrips in Wd.
    destruct (civilFromDays (daysFromCivil y m d)) as [[y' m'] d'].
    apply andb_prop in Wd as [W Wd']. apply andb_prop in W as [Wy Wm].
    apply Z.eqb_eq in Wy, Wm, Wd'. now subst.
Qed.

Lemma isLeap_mod (y : Z) : isLeap (y mod 400) = isLeap y.
Proof.
  unfold isLeap.
  rewrite (Z.mod_mod_divide y 400 4), (Z.mod_mod_divide y 400 100), Z.mod_mod;
    try reflexivity; try lia.
  - exists 4. reflexivity.
  - exists 100. reflexivity.
Qed.

Lemma civil_days (y m d : Z) :
  validDate y m d -> civilFromDays (daysFromCivil y m d) = (y, m, d).
Proof.
  intros [Hm Hd].
  assert (Hv : validDate (y mod 400) m d).
  { split; [exact Hm|]. unfold daysInMonth in *. now rewrite isLeap_mod. }
  pose proof (Z.mod_pos_bound y 400 ltac:(lia)) as Hb.
  rewrite (Z.div_mod y 400) at 1 by lia.
  replace (400 * (y / 400) + y mod 400) with (y mod 400 + 400 * (y / 400)) by ring.
  rewrite days_shift, civil_shift, (civil_days_window _ m d Hb Hv). simpl.
  f_equal. f_equal. rewrite (Z.div_mod y 400) at 3 by lia. ring.
Qed.

Lemma splitDash_field (f rest : jsstring) :
  Forall isDigit f -> splitDash (f ++ 45%N :: rest) = f :: splitDash rest.
Proof.
  induction 1 as [|c f Hc _ IH]; simpl.
  - reflexivity.
  - replace (c =? 45)%N with false
      by (symmetry; apply N.eqb_neq; unfold isDigit in Hc; lia).
    now rewrite IH.
Qed.

Lemma splitDash_last (f : jsstring) :
  Forall isDigit f -> splitDash f = [f].
Proof.
  induction 1 as [|c f Hc _ IH]; simpl; [reflexivity|].
  replace (c =? 45)%N with false
    by (symmetry; apply N.eqb_neq; unfold isDigit in Hc; lia).
  now rewrite IH.
Qed.

Lemma fromInput_fields (ys ms ds : jsstring) :
  Forall isDigit ys -> Forall isDigit ms -> Forall isDigit ds ->
  fromInput (dateString ys ms ds)
  = DateOf (NumberOf ys) (NumberOf ms - 1) (NumberOf ds).
Proof.
  intros Hy Hm Hd. unfold fromInput, dateString.
  change (str "-") with [45%N]. simpl app.
  rewrite (splitDash_field ys), (splitDash_field ms), (splitDash_last ds)
    by assumption.
  reflexivity.
Qed.

Lemma DateOf_midnight (y m d : Z) :
  100 <= y -> 1 <= m <= 12 ->
  DateOf y (m - 1) d = daysFromCivil y m d * msPerDay.
Proof.
  intros Hy Hm. unfold DateOf.
  replace ((0 <=? y) && (y <=? 99)) with false
    by (symmetry; apply andb_false_iff; right; apply Z.leb_gt; lia).
  cbv zeta. rewrite Z.div_small, Z.mod_small by lia.
  f_equal. unfold daysFromCivil. cbv zeta.
  replace (m - 1 + 1) with m by ring. rewrite Z.add_0_r.
  destruct (m <=? 2); ring.
Qed.

End GregorianFacts.

Section OnUTC_C6.
Local Existing Instance UTC.calendar.


End OnUTC_C6.



(** ** C10: editing a task *)

Lemma lookup_map {A B : Type} (f : A -> B) (l : list A) (n : nat) :
  List.map f l !! n = option_map f (l !! n).
Proof.
  revert n. induction l as [|x l IH]; intros [|n]; simpl; try reflexivity.
  apply IH.
Qed.

(** C10: [editTask] keeps the length and the positions of the list; a task
    whose id is the given one gets the new text and exactly the new due
    date, none when none is supplied, and keeps its id, creation time and
    completed flag; every other task stays as it is.  A save through
    [handleSave] with a text that is not empty once trimmed is this edit,
    with no due date when the date field is empty. *)
Theorem editTask_spec `{Calendar} (i newText : jsstring)
    (newDueDate : option Z) (prev : list Task) :
  List.length (editTask i newText newDueDate prev) = List.length prev
  /\ (forall (n : nat) (t : Task), prev !! n = Some t ->
        exists t', editTask i newText newDueDate prev !! n = Some t'
          /\ id t' = id t
          /\ createdAt t' = createdAt t
          /\ completed t' = completed t
          /\ (id t = i -> text t' = newText /\ dueDate t' = newDueDate)
          /\ (id t <> i -> t' = t))
  /\ (forall (task : Task) (st : ItemState),
        trim (editText st) <> [] ->
        snd (handleSave task st prev)
        = editTask (id task) (trim (editText st))
            (if truthy (editDate st)
             then Some (dateFromInput (editDate st)) else None) prev).
Proof.
  split; [apply List.length_map|]. split.
  - intros n t Hn. unfold editTask. rewrite lookup_map, Hn. simpl.
    unfold eqs. destruct (bool_decide_reflect (id t = i)) as [E|E].
    + eexists; split; [reflexivity|]. simpl. tauto.
    + exists t. tauto.
  - intros task st Hne. apply truthy_true in Hne.
    unfold handleSave. now rewrite Hne.
Qed.

Section OnUTC_C10.
Local Existing Instance UTC.calendar.

Lemma editTask_spec_witness :
  [Examples.flight; Examples.milk] !! 1%nat = Some Examples.milk
  /\ trim (editText (mkItem true (str "Buy oat milk ") [])) <> []
  /\ snd (handleSave Examples.milk (mkItem true (str "Buy oat milk ") [])
            [Examples.flight; Examples.milk])
     = [Examples.flight;
        {| id := str "a1"; text := str "Buy oat milk"; completed := false;
           createdAt := 1000; dueDate := None |}]
  /\ exists t',
       editTask (str "a1") (str "Buy oat milk") None
         [Examples.flight; Examples.milk] !! 1%nat = Some t'
       /\ text t' = str "Buy oat milk" /\ dueDate t' = None.
Proof.
  pose proof (editTask_spec (str "a1") (str "Buy oat milk") None
                [Examples.flight; Examples.milk]) as (_ & Hat & Hsave).
  split; [reflexivity|]. split; [discriminate|]. split.
  - exact (Hsave Examples.milk (mkItem true (str "Buy oat milk ") [])
             ltac:(discriminate)).
  - destruct (Hat 1%nat Examples.milk eq_refl) as (t' & E & _ & _ & _ & Hm & _).
    exists t'. split; [exact E|]. exact (Hm eq_refl).
Defined.

End OnUTC_C10.

(** ** C8: no task with an empty text *)

Section Invariant.
Context `{Calendar}.

Lemma perform_textOk (a : action) (l : list Task) :
  Forall textOk l -> Forall textOk (perform a l).
Proof.
  intros Hl. destruct a as [uuid now txt ds|i|i|task st|f fd]; simpl.
  - unfold addTask. destruct (truthy (trim txt)) eqn:E; simpl; [|exact Hl].
    constructor; [|exact Hl]. unfold textOk. simpl. rewrite trim_idem.
    now apply truthy_true.
  - unfold toggleTask. apply List.Forall_map.
    eapply List.Forall_impl; [|exact Hl]. intros t Ht.
    destruct (eqs (id t) i); exact Ht.
  - unfold deleteTask. apply List.Forall_forall. intros t Ht.
    apply List.filter_In in Ht. rewrite List.Forall_forall in Hl.
    now apply Hl.
  - unfold handleSave. destruct (truthy (trim (editText st))) eqn:E; simpl;
      [|exact Hl].
    unfold editTask. apply List.Forall_map.
    eapply List.Forall_impl; [|exact Hl]. intros t Ht.
    destruct (eqs (id t) (id task)); [|exact Ht].
    unfold textOk. simpl. rewrite trim_idem. now apply truthy_true.
  - rewrite tasksAfter_eq.
    destruct (isALL f && negb (truthy fd)); [|exact Hl].
    apply List.Forall_forall. intros t Ht. apply sort_In in Ht.
    rewrite List.Forall_forall in Hl. now apply Hl.
Qed.

(** C8: in every state reached from the empty store by adding, toggling,
    deleting, saving an edit through [handleSave] and rendering, every task
    has a text that is not empty once trimmed. *)
Theorem reachable_textOk (l : list Task) :
  reachable l -> Forall textOk l.
Proof.
  induction 1 as [|l a _ IH]; [constructor|]. now apply perform_textOk.
Qed.

End Invariant.

Section OnUTC_C8.
Local Existing Instance UTC.calendar.

Lemma reachable_textOk_witness :
  reachable Examples.tripStore /\ Forall textOk Examples.tripStore.
Proof.
  assert (R : reachable Examples.tripStore).
  { exact (reach_step _ (Add (str "u2") 1719800000500 (str "Book flight") None)
             (reach_step _ (Add (str "u1") 1719800000000 (str "Plan trip")
                              (Some (str "2024-07-01"))) reach_init)). }
  split; [exact R|]. exact (reachable_textOk Examples.tripStore R).
Defined.

End OnUTC_C8.

(** ** C7: the suggestion client *)

Module GeminiFacts.
Import Gemini.

Section Client.
Variable API_KEY : option jsstring.
Variable generateContent : jsstring -> completion (option jsstring).
Variable JSON_parse : jsstring -> completion json.

Abbreviation run := (suggestSubtasks API_KEY generateContent JSON_parse).

Lemma suggestSubtasks_returns (taskText : jsstring) :
  exists v, fst (run taskText) = Return v.
Proof.
  unfold suggestSubtasks.
  destruct (truthy (apiKey API_KEY)); simpl; [|eauto].
  destruct (generateContent (contentsFor taskText)) as [t|e]; simpl; [|eauto].
  destruct (truthyText t); simpl; [|eauto].
  destruct (JSON_parse (default [] t)) as [v|e]; simpl; [|eauto].
  destruct (getSubtasks v) as [f|e]; simpl; eauto.
Qed.

Lemma suggestSubtasks_failed (taskText : jsstring) :
  truthy (apiKey API_KEY) = true ->
  failed generateContent JSON_parse taskText ->
  fst (run taskText) = Return emptyList.
Proof.
  intros Hk Hf. unfold suggestSubtasks. rewrite Hk. simpl.
  destruct Hf as [e Hg|t Hg Ht|s e Hg Hp|s Hg Hp|s v f Hg Hp Hs Hf|s v Hg Hp Hs];
    rewrite Hg; simpl; try reflexivity.
  - rewrite Ht. reflexivity.
  - destruct (truthy s); simpl; [|reflexivity]. rewrite Hp. reflexivity.
  - destruct (truthy s); simpl; [|reflexivity]. rewrite Hp. reflexivity.
  - destruct (truthy s); simpl; [|reflexivity]. rewrite Hp. simpl.
    rewrite Hs. simpl. rewrite Hf. reflexivity.
  - destruct (truthy s); simpl; [|reflexivity]. rewrite Hp. simpl.
    rewrite Hs. reflexivity.
Qed.

(** C7: the client always returns and never throws; without a credential
    it returns the empty list after a warning and sends no request; with a
    credential, whenever the attempted call fails (the call rejects, the
    response has no text, the text does not parse, the parsed value is
    [null], the [subtasks] field is missing, falsy or empty) it returns the
    empty list. *)
Theorem suggestSubtasks_total (taskText : jsstring) :
  (exists v, fst (run taskText) = Return v)
  /\ (truthy (apiKey API_KEY) = false ->
      run taskText = (Return emptyList, [ConsoleWarn]))
  /\ (truthy (apiKey API_KEY) = true ->
      failed generateContent JSON_parse taskText ->
      fst (run taskText) = Return emptyList).
Proof.
  split; [apply suggestSubtasks_returns|]. split.
  - intros Hk. unfold suggestSubtasks. now rewrite Hk.
  - apply suggestSubtasks_failed.
Qed.

End Client.

(** A service that rejects every call, and one that is not even asked. *)
Lemma suggestSubtasks_total_witness :
  suggestSubtasks None (fun _ => Throw NetworkError) (fun _ => Throw SyntaxError)
      (str "Plan trip")
    = (Return emptyList, [ConsoleWarn])
  /\ fst (suggestSubtasks (Some (str "key")) (fun _ => Throw NetworkError)
            (fun _ => Throw SyntaxError) (str "Plan trip"))
     = Return emptyList.
Proof.
  split.
  - exact (proj1 (proj2 (suggestSubtasks_total None
             (fun _ => Throw NetworkError) (fun _ => Throw SyntaxError)
             (str "Plan trip"))) eq_refl).
  - exact (proj2 (proj2 (suggestSubtasks_total (Some (str "key"))
             (fun _ => Throw NetworkError) (fun _ => Throw SyntaxError)
             (str "Plan trip"))) eq_refl
             (network_error _ _ _ NetworkError eq_refl)).
Defined.

End GeminiFacts.

(** * Further properties of the store, the pipeline and the handlers *)

(** ** Store operations *)

Lemma filter_all {A : Type} (p : A -> bool) (l : list A) :
  (forall x, In x l -> p x = true) -> List.filter p l = l.
Proof.
  induction l as [|x l IH]; intros Hp; simpl; [reflexivity|].
  rewrite (Hp x) by now left. f_equal. apply IH. intros; apply Hp; now right.
Qed.

Lemma filter_none {A : Type} (p : A -> bool) (l : list A) :
  (forall x, In x l -> p x = false) -> List.filter p l = [].
Proof.
  induction l as [|x l IH]; intros Hp; simpl; [reflexivity|].
  rewrite (Hp x) by now left. apply IH. intros; apply Hp; now right.
Qed.

Lemma map_same {A : Type} (f : A -> A) (l : list A) :
  (forall x, In x l -> f x = x) -> List.map f l = l.
Proof.
  induction l as [|x l IH]; intros Hf; simpl; [reflexivity|].
  rewrite (Hf x) by now left. f_equal. apply IH. intros; apply Hf; now right.
Qed.

Lemma eqs_true (a b : jsstring) : eqs a b = true <-> a = b.
Proof. unfold eqs. apply bool_decide_eq_true. Qed.

Lemma eqs_false (a b : jsstring) : eqs a b = false <-> a <> b.
Proof. unfold eqs. apply bool_decide_eq_false. Qed.

Lemma eqs_refl (a : jsstring) : eqs a a = true.
Proof. now apply eqs_true. Qed.

Lemma toggleTask_ids (i : jsstring) (l : list Task) :
  List.map id (toggleTask i l) = List.map id l.
Proof.
  unfold toggleTask. rewrite List.map_map. apply List.map_ext.
  intros t. now destruct (eqs (id t) i).
Qed.

Lemma editTask_ids (i newText : jsstring) (d : option Z) (l : list Task) :
  List.map id (editTask i newText d l) = List.map id l.
Proof.
  unfold editTask. rewrite List.map_map. apply List.map_ext.
  intros t. now destruct (eqs (id t) i).
Qed.

(** X1: toggling the same id twice gives the list back, whether or not a
    task has that id. *)
Theorem toggleTask_twice (i : jsstring) (l : list Task) :
  toggleTask i (toggleTask i l) = l.
Proof.
  unfold toggleTask. rewrite List.map_map. apply map_same.
  intros [ti tt tc ta td] _. simpl.
  destruct (eqs ti i) eqn:E; simpl; rewrite E; [|reflexivity].
  now rewrite negb_involutive.
Qed.

(** X2: [toggleTask] keeps the length and the positions of the list; a task
    with the given id has its completed flag negated and every other field
    kept, a task with another id is returned as it is. *)
Theorem toggleTask_spec (i : jsstring) (l : list Task) :
  List.length (toggleTask i l) = List.length l
  /\ forall (n : nat) (t : Task), l !! n = Some t ->
       exists t', toggleTask i l !! n = Some t'
         /\ id t' = id t /\ text t' = text t
         /\ createdAt t' = createdAt t /\ dueDate t' = dueDate t
         /\ (id t = i -> completed t' = negb (completed t))
         /\ (id t <> i -> t' = t).
Proof.
  split; [apply List.length_map|].
  intros n t Hn. unfold toggleTask. rewrite lookup_map, Hn. simpl.
  destruct (eqs (id t) i) eqn:E.
  - apply eqs_true in E. eexists; split; [reflexivity|]. simpl. tauto.
  - apply eqs_false in E. exists t. tauto.
Qed.

Lemma toggleTask_spec_witness :
  [Examples.flight; Examples.milk] !! 1%nat = Some Examples.milk
  /\ exists t',
       toggleTask (str "a1") [Examples.flight; Examples.milk] !! 1%nat = Some t'
       /\ completed t' = true /\ text t' = str "Buy milk".
Proof.
  split; [reflexivity|].
  destruct (proj2 (toggleTask_spec (str "a1") [Examples.flight; Examples.milk])
              1%nat Examples.milk eq_refl)
    as (t' & E & _ & Ht & _ & _ & Hc & _).
  exists t'. split; [exact E|]. split; [exact (Hc eq_refl) | exact Ht].
Defined.

(** X3: an operation that names an id which no task of the list has leaves
    the list as it is, be it a toggle, a deletion or an edit. *)
Theorem unknown_id_noop (i newText : jsstring) (d : option Z) (l : list Task) :
  ~ In i (List.map id l) ->
  toggleTask i l = l /\ deleteTask i l = l /\ editTask i newText d l = l.
Proof.
  intros Hi.
  assert (Hne : forall t, In t l -> eqs (id t) i = false).
  { intros t Ht. apply eqs_false. intros <-. apply Hi. now apply List.in_map. }
  repeat split.
  - apply map_same. intros t Ht. now rewrite (Hne t Ht).
  - apply filter_all. intros t Ht. now rewrite (Hne t Ht).
  - apply map_same. intros t Ht. now rewrite (Hne t Ht).
Qed.

Lemma unknown_id_noop_witness :
  ~ In (str "zz") (List.map id [Examples.flight; Examples.milk])
  /\ deleteTask (str "zz") [Examples.flight; Examples.milk]
     = [Examples.flight; Examples.milk].
Proof.
  assert (Hi : ~ In (str "zz") (List.map id [Examples.flight; Examples.milk])).
  { simpl. intros [E|[E|[]]]; discriminate. }
  split; [exact Hi|].
  exact (proj1 (proj2 (unknown_id_noop (str "zz") [] None
                         [Examples.flight; Examples.milk] Hi))).
Defined.

(** X4: where ids are unique, deleting the id of a task removes that task
    and nothing else, and keeps the order of the others. *)
Theorem deleteTask_removes_one (t : Task) (before after : list Task) :
  List.NoDup (List.map id (before ++ t :: after)) ->
  deleteTask (id t) (before ++ t :: after) = before ++ after.
Proof.
  intros Hnd. rewrite List.map_app in Hnd. simpl in Hnd.
  pose proof (List.NoDup_remove_2 _ _ _ Hnd) as Hnot.
  unfold deleteTask. rewrite List.filter_app. simpl.
  rewrite eqs_refl. simpl. f_equal; apply filter_all; intros u Hu;
    apply negb_true_iff, eqs_false; intros E; apply Hnot, List.in_or_app;
    [left|right]; rewrite <- E; now apply List.in_map.
Qed.

Lemma deleteTask_removes_one_witness :
  List.NoDup (List.map id ([Examples.flight] ++ Examples.milk :: [Examples.done1]))
  /\ deleteTask (str "a1") [Examples.flight; Examples.milk; Examples.done1]
     = [Examples.flight; Examples.done1].
Proof.
  assert (Hnd : List.NoDup (List.map id
                         ([Examples.flight] ++ Examples.milk :: [Examples.done1]))).
  { simpl. repeat (constructor; [simpl; intuition discriminate|]). constructor. }
  split; [exact Hnd|].
  exact (deleteTask_removes_one Examples.milk [Examples.flight]
           [Examples.done1] Hnd).
Defined.

(** X5: adding a task under an identifier that is not in use and then
    deleting that identifier gives the list back, whether or not the text
    was accepted. *)
Theorem deleteTask_addTask `{Calendar} (uuid : jsstring) (now : Z)
    (txt : jsstring) (dateStr : option jsstring) (l : list Task) :
  ~ In uuid (List.map id l) ->
  deleteTask uuid (addTask uuid now txt dateStr l) = l.
Proof.
  intros Hi.
  assert (Hl : deleteTask uuid l = l).
  { apply filter_all. intros t Ht. apply negb_true_iff, eqs_false.
    intros <-. apply Hi. now apply List.in_map. }
  unfold addTask. destruct (negb (truthy (trim txt))); [exact Hl|].
  unfold deleteTask in *. simpl. rewrite eqs_refl. exact Hl.
Qed.

(** X6: the last edit of an id wins: an edit followed by another edit of
    the same id is the second edit alone. *)
Theorem editTask_twice (i t1 t2 : jsstring) (d1 d2 : option Z)
    (l : list Task) :
  editTask i t2 d2 (editTask i t1 d1 l) = editTask i t2 d2 l.
Proof.
  unfold editTask. rewrite List.map_map. apply List.map_ext.
  intros t. destruct (eqs (id t) i) eqn:E; simpl; now rewrite E.
Qed.

(** X7: an edit and a toggle touch different fields: they can be done in
    either order, on the same id or on two. *)
Theorem editTask_toggleTask_comm (i j newText : jsstring) (d : option Z)
    (l : list Task) :
  editTask i newText d (toggleTask j l) = toggleTask j (editTask i newText d l).
Proof.
  unfold editTask, toggleTask. rewrite !List.map_map.
  apply List.map_ext. intros t.
  destruct (eqs (id t) i) eqn:Ei, (eqs (id t) j) eqn:Ej; simpl;
    rewrite ?Ei, ?Ej; reflexivity.
Qed.

(** ** Invariants of the store *)

Lemma NoDup_map_filter {A B : Type} (f : A -> B) (p : A -> bool) (l : list A) :
  List.NoDup (List.map f l) -> List.NoDup (List.map f (List.filter p l)).
Proof.
  induction l as [|x l IH]; simpl; intros Hnd; [constructor|].
  inversion Hnd as [|? ? Hnot Hnd']; subst.
  destruct (p x); simpl; [|now apply IH].
  constructor; [|now apply IH].
  intros Hin. apply Hnot. apply List.in_map_iff in Hin as (y & Hy & Hin).
  apply List.filter_In in Hin. apply List.in_map_iff. exists y. tauto.
Qed.

Lemma tasksAfter_perm `{Calendar} (l : list Task) (filter : FilterType)
    (filterDate : jsstring) :
  Permutation l (tasksAfter l filter filterDate).
Proof.
  rewrite tasksAfter_eq. destruct (isALL filter && negb (truthy filterDate));
    [apply sort_perm | reflexivity].
Qed.

(** X8: every action keeps the identifiers of the store distinct, provided
    an added task draws an identifier that is not in use; a rendering,
    which may reorder the store's array, is among the actions. *)
Theorem perform_unique_ids `{Calendar} (a : action) (l : list Task) :
  List.NoDup (List.map id l) -> freshFor a l ->
  List.NoDup (List.map id (perform a l)).
Proof.
  intros Hnd Hfresh. destruct a as [uuid now txt ds|i|i|task st|f fd]; simpl.
  - unfold addTask. destruct (negb (truthy (trim txt))); [exact Hnd|].
    simpl. now constructor.
  - now rewrite toggleTask_ids.
  - now apply NoDup_map_filter.
  - unfold handleSave. destruct (truthy (trim (editText st))); simpl;
      [now rewrite editTask_ids | exact Hnd].
  - eapply Permutation_NoDup; [|exact Hnd].
    apply Permutation_map, tasksAfter_perm.
Qed.

Section OnUTC_X8.
Local Existing Instance UTC.calendar.

Lemma perform_unique_ids_witness :
  List.NoDup (List.map id [Examples.milk])
  /\ freshFor (Add (str "u9") 7000 (str "Plan trip") None) [Examples.milk]
  /\ List.NoDup (List.map id
       (perform (Add (str "u9") 7000 (str "Plan trip") None) [Examples.milk])).
Proof.
  assert (Hnd : List.NoDup (List.map id [Examples.milk])).
  { simpl. repeat (constructor; [simpl; intuition discriminate|]). constructor. }
  assert (Hf : freshFor (Add (str "u9") 7000 (str "Plan trip") None)
                 [Examples.milk]).
  { simpl. intuition discriminate. }
  split; [exact Hnd|]. split; [exact Hf|].
  exact (perform_unique_ids (Add (str "u9") 7000 (str "Plan trip") None)
           [Examples.milk] Hnd Hf).
Defined.

End OnUTC_X8.

(** X9: in every state reached from the empty store the text of every task
    is stored trimmed: trimming it again changes nothing. *)
Theorem reachable_trimmed `{Calendar} (l : list Task) :
  reachable l -> Forall (fun t => trim (text t) = text t) l.
Proof.
  induction 1 as [|l a _ IH]; [constructor|].
  destruct a as [uuid now txt ds|i|i|task st|f fd]; simpl.
  - unfold addTask. destruct (negb (truthy (trim txt))); [exact IH|].
    constructor; [apply trim_idem | exact IH].
  - unfold toggleTask. apply List.Forall_map.
    eapply List.Forall_impl; [|exact IH]. intros t Ht.
    destruct (eqs (id t) i); exact Ht.
  - unfold deleteTask. apply List.Forall_forall. intros t Ht.
    apply List.filter_In in Ht. rewrite List.Forall_forall in IH.
    now apply IH.
  - unfold handleSave. destruct (truthy (trim (editText st))); simpl;
      [|exact IH].
    unfold editTask. apply List.Forall_map.
    eapply List.Forall_impl; [|exact IH]. intros t Ht.
    destruct (eqs (id t) (id task)); [apply trim_idem | exact Ht].
  - apply List.Forall_forall. intros t Ht.
    apply (Permutation_in _ (Permutation_sym (tasksAfter_perm l f fd))) in Ht.
    rewrite List.Forall_forall in IH. now apply IH.
Qed.

Section OnUTC_X9.
Local Existing Instance UTC.calendar.

Lemma reachable_trimmed_witness :
  reachable (perform (Add (str "u1") 5000 (str "  Pay rent ") None) [])
  /\ Forall (fun t => trim (text t) = text t)
       (perform (Add (str "u1") 5000 (str "  Pay rent ") None) []).
Proof.
  assert (R : reachable (perform (Add (str "u1") 5000 (str "  Pay rent ") None) []))
    by exact (reach_step _ _ reach_init).
  split; [exact R|]. exact (reachable_trimmed _ R).
Defined.

End OnUTC_X9.

(** ** The pipeline *)

Section PipelineMore.
Context `{Calendar}.

(** X10: the pipeline neither invents nor repeats tasks: with [ALL] and no
    date filter the view is a rearrangement of the store, and under any
    filters the view is a rearrangement of the tasks of the store that pass
    the status filter and, when a date filter is set, its test. *)
Theorem derived_selection (l : list Task) (filter : FilterType)
    (filterDate : jsstring) :
  Permutation (derived l ALL []) l
  /\ Permutation (derived l filter filterDate)
       (List.filter (fun t => passes filter t
          && (negb (truthy filterDate) || dateMatches filterDate t)) l).
Proof.
  split.
  - rewrite derived_eq. simpl. symmetry. apply sort_perm.
  - rewrite derived_eq, <- sort_perm, statusStep_passes. unfold dateStep.
    destruct (truthy filterDate); simpl.
    + induction l as [|t l IH]; simpl; [reflexivity|].
      destruct (passes filter t); simpl; [|exact IH].
      destruct (dateMatches filterDate t); [now apply perm_skip | exact IH].
    + erewrite List.filter_ext; [reflexivity|].
      intros t. simpl. now rewrite andb_true_r.
Qed.

Lemma insert_head {A : Type} (cmp : A -> A -> Z) (x : A) (l : list A) :
  Forall (fun y => cmp x y <= 0) l -> insert cmp x l = x :: l.
Proof.
  intros Hall. destruct Hall as [|y l Hy _]; simpl; [reflexivity|].
  apply Z.leb_le in Hy. now rewrite Hy.
Qed.

Lemma sort_fixed {A : Type} (cmp : A -> A -> Z) (l : list A) :
  StronglySorted (notAfter cmp) l -> sort cmp l = l.
Proof.
  induction 1 as [|x l Hs IH Hall]; [reflexivity|].
  simpl. rewrite IH. now apply insert_head.
Qed.

(** X11: the pipeline is idempotent: run on its own result with the same
    filters it returns that result; so a second rendering leaves the
    store's array as the first one left it. *)
Theorem derived_idempotent (l : list Task) (filter : FilterType)
    (filterDate : jsstring) :
  derived (derived l filter filterDate) filter filterDate
    = derived l filter filterDate
  /\ tasksAfter (tasksAfter l filter filterDate) filter filterDate
    = tasksAfter l filter filterDate.
Proof.
  split.
  - rewrite (derived_eq (derived l filter filterDate)).
    assert (Hin : forall t, In t (derived l filter filterDate) ->
              In t (dateStep filterDate (statusStep filter l)))
      by (intros t; apply derived_In).
    rewrite statusStep_passes.
    rewrite (filter_all (passes filter)).
    + unfold dateStep at 1. destruct (truthy filterDate) eqn:Ef.
      * rewrite filter_all; [apply sort_fixed, derived_sorted|].
        intros t Ht. apply Hin in Ht. unfold dateStep in Ht. rewrite Ef in Ht.
        apply List.filter_In in Ht. tauto.
      * apply sort_fixed, derived_sorted.
    + intros t Ht. apply Hin in Ht.
      assert (Hs : In t (statusStep filter l)).
      { unfold dateStep in Ht. destruct (truthy filterDate); [|exact Ht].
        apply List.filter_In in Ht. tauto. }
      rewrite statusStep_passes in Hs. apply List.filter_In in Hs. tauto.
  - rewrite !tasksAfter_eq.
    destruct (isALL filter && negb (truthy filterDate)); [|reflexivity].
    apply sort_fixed, sort_sorted, compareTasks_consistent.
Qed.

(** X12: under a date filter the tasks of one group (all of them, when the
    filter is not [ALL]) are rendered by creation time, the most recently
    created first. *)
Theorem derived_order_date (l : list Task) (filter : FilterType)
    (filterDate : jsstring) (i j : nat) (x y : Task) :
  truthy filterDate = true ->
  derived l filter filterDate !! i = Some x ->
  derived l filter filterDate !! j = Some y ->
  (i < j)%nat ->
  (isALL filter = true -> completed x = completed y) ->
  createdAt y <= createdAt x.
Proof.
  intros Hf Hi Hj Hlt Hgrp.
  pose proof (StronglySorted_lookup _ _ (derived_sorted l filter filterDate)
                i j x y Hi Hj Hlt) as Hle.
  unfold notAfter, compareTasks in Hle. rewrite Hf in Hle.
  destruct (isALL filter); simpl in Hle; [|lia].
  rewrite (Hgrp eq_refl), eqb_reflx in Hle. simpl in Hle. lia.
Qed.

(** X13: changing the status filter never reorders what stays visible: the
    [ACTIVE] view is the [ALL] view without its completed tasks, and the
    [COMPLETED] view is the [ALL] view without the others. *)
Theorem derived_status_of_ALL (l : list Task) (filterDate : jsstring) :
  derived l ACTIVE filterDate
    = List.filter (fun t => negb (completed t)) (derived l ALL filterDate)
  /\ derived l COMPLETED filterDate
    = List.filter completed (derived l ALL filterDate).
Proof.
  rewrite derived_ALL_split, !List.filter_app.
  destruct (derived_status l filterDate) as [Ha Hc].
  rewrite List.Forall_forall in Ha, Hc.
  rewrite (filter_all (fun t => negb (completed t)) (derived l ACTIVE filterDate)),
    (filter_none (fun t => negb (completed t)) (derived l COMPLETED filterDate)),
    (filter_none completed (derived l ACTIVE filterDate)),
    (filter_all completed (derived l COMPLETED filterDate)).
  - now rewrite List.app_nil_r.
  - exact Hc.
  - exact Ha.
  - intros t Ht. now rewrite (Hc t Ht).
  - intros t Ht. now rewrite (Ha t Ht).
Qed.

End PipelineMore.

(** ** The pipeline and the store operations *)

Section SortFilter.
Context {A : Type} (cmp : A -> A -> Z) (q : A -> bool).

Lemma insert_filter_out (x : A) (l : list A) :
  q x = false -> List.filter q (insert cmp x l) = List.filter q l.
Proof.
  intros Hx. induction l as [|y l IH]; simpl; [now rewrite Hx|].
  destruct (cmp x y <=? 0); simpl; [now rewrite Hx|]. now rewrite IH.
Qed.

Lemma insert_filter_in (x : A) (l : list A) :
  consistent cmp -> StronglySorted (notAfter cmp) l -> q x = true ->
  List.filter q (insert cmp x l) = insert cmp x (List.filter q l).
Proof.
  intros [_ Htr] Hs Hx. induction Hs as [|y l Hs IH Hall]; simpl.
  - now rewrite Hx.
  - destruct (cmp x y <=? 0) eqn:E.
    + apply Z.leb_le in E. simpl. rewrite Hx. symmetry. apply insert_head.
      assert (Hxl : Forall (fun z => cmp x z <= 0) (y :: l)).
      { constructor; [exact E|]. eapply List.Forall_impl; [|exact Hall].
        intros z Hz. now apply (Htr x y z). }
      rewrite List.Forall_forall in Hxl. apply List.Forall_forall.
      intros z Hz. apply Hxl.
      change (In z (List.filter q (y :: l))) in Hz.
      apply List.filter_In in Hz. tauto.
    + simpl. destruct (q y); simpl; rewrite ?E, IH; reflexivity.
Qed.

Lemma sort_filter (l : list A) :
  consistent cmp ->
  List.filter q (sort cmp l) = sort cmp (List.filter q l).
Proof.
  intros Hc. induction l as [|x l IH]; [reflexivity|].
  change (sort cmp (x :: l)) with (insert cmp x (sort cmp l)).
  simpl List.filter. destruct (q x) eqn:Hx.
  - rewrite insert_filter_in by (auto using sort_sorted). simpl. now rewrite IH.
  - now rewrite insert_filter_out.
Qed.

End SortFilter.

Section PipelineStore.
Context `{Calendar}.

Lemma derived_filter (q : Task -> bool) (l : list Task)
    (filter : FilterType) (filterDate : jsstring) :
  derived (List.filter q l) filter filterDate
  = List.filter q (derived l filter filterDate).
Proof.
  rewrite !derived_eq, !statusStep_passes.
  rewrite (filter_comm (passes filter) q), dateStep_filter.
  symmetry. apply sort_filter, compareTasks_consistent.
Qed.

(** X14: deleting a task and deriving the view is deriving the view and
    taking the task out of it: a deletion never reorders the tasks that
    stay visible. *)
Theorem derived_deleteTask (i : jsstring) (l : list Task)
    (filter : FilterType) (filterDate : jsstring) :
  derived (deleteTask i l) filter filterDate
  = deleteTask i (derived l filter filterDate).
Proof. unfold deleteTask. apply derived_filter. Qed.

(** X15: the comparator handed to [sort] is consistent, as the sort
    requires for a defined result: swapping its arguments negates it, and
    "not after" is transitive. *)
Theorem compareTasks_order (filter : FilterType) (filterDate : jsstring)
    (a b c : Task) :
  compareTasks filter filterDate b a = - compareTasks filter filterDate a b
  /\ (compareTasks filter filterDate a b <= 0 ->
      compareTasks filter filterDate b c <= 0 ->
      compareTasks filter filterDate a c <= 0).
Proof.
  split; [apply compareTasks_antisym|].
  apply (cmp_trans _ (compareTasks_consistent filter filterDate)).
Qed.

(** X16: the counters of the header agree with the views without a date
    filter: the completed count is the length of the [COMPLETED] view, the
    total is the length of the [ALL] view, and the [ACTIVE] view holds the
    rest. *)
Theorem counts_views (l : list Task) :
  App.completedCount l = List.length (derived l COMPLETED [])
  /\ App.totalCount l = List.length (derived l ALL [])
  /\ (App.completedCount l + List.length (derived l ACTIVE []))%nat
     = App.totalCount l.
Proof.
  rewrite !derived_eq. unfold dateStep, statusStep. simpl truthy. cbv iota.
  rewrite !sort_length. unfold App.completedCount, App.totalCount.
  repeat split. apply List.filter_length.
Qed.

Lemma localDay_truthy (ts : Z) : truthy (localDay ts) = true.
Proof.
  unfold localDay. destruct (String_of (getFullYear ts)); reflexivity.
Qed.

(** X17: a task added with a date is shown when the view is filtered by
    that same date, provided the date's local midnight is not the time
    value [0] and the calendar renders it back to the string it came from. *)
Theorem added_task_shown (uuid : jsstring) (now : Z) (txt s : jsstring)
    (l : list Task) :
  trim txt <> [] -> s <> [] ->
  dateFromInput s <> 0 -> localDay (dateFromInput s) = s ->
  In {| id := uuid; text := trim txt; completed := false; createdAt := now;
        dueDate := Some (dateFromInput s) |}
     (derived (addTask uuid now txt (Some s) l) ACTIVE s).
Proof.
  intros Ht Hs Hz Hday. apply truthy_true in Ht, Hs.
  apply derived_In. unfold dateStep, statusStep. rewrite Hs.
  unfold addTask. rewrite Ht. simpl negb. cbv iota. unfold dueDateOf.
  rewrite Hs. apply List.filter_In. split.
  - apply List.filter_In. split; [now left | reflexivity].
  - unfold dateMatches. simpl. apply Z.eqb_neq in Hz. rewrite Hz. simpl.
    rewrite Hday. apply eqs_refl.
Qed.

(** X18: opening the editor of a task and saving at once changes nothing
    in the store, provided the task's text is stored trimmed and not empty,
    its due date, if any, is not the time value [0] and is the local
    midnight that its rendering denotes, and no other task has its id. *)
Theorem save_unchanged (task : Task) (tasks : list Task) :
  trim (text task) = text task -> text task <> [] ->
  (forall d, dueDate task = Some d ->
     d <> 0 /\ dateFromInput (localDay d) = d) ->
  Forall (fun t => id t = id task -> t = task) tasks ->
  snd (handleSave task (TaskItem.opened task) tasks) = tasks.
Proof.
  intros Htrim Hne Hdue Hid. apply truthy_true in Hne.
  assert (Hd : dueDateOf (Some (getInputValue (dueDate task))) = dueDate task).
  { unfold dueDateOf, getInputValue. destruct (dueDate task) as [d|] eqn:Ed;
      [|reflexivity].
    destruct (Hdue d eq_refl) as [Hz Hrt]. simpl.
    apply Z.eqb_neq in Hz. rewrite Hz. simpl.
    now rewrite localDay_truthy, Hrt. }
  unfold handleSave.
  change (editText (TaskItem.opened task)) with (text task).
  change (editDate (TaskItem.opened task)) with (getInputValue (dueDate task)).
  rewrite Htrim, Hne, Hd. cbn [snd].
  apply map_same. intros t Ht.
  rewrite List.Forall_forall in Hid.
  destruct (eqs (id t) (id task)) eqn:E; [|reflexivity].
  apply eqs_true in E. rewrite (Hid t Ht E). now destruct task.
Qed.

End PipelineStore.

Section OnUTC_Pipeline.
Local Existing Instance UTC.calendar.

Lemma derived_order_date_witness :
  truthy (str "1970-01-02") = true
  /\ derived MoreExamples.sameDay ALL (str "1970-01-02") !! 0%nat
     = Some MoreExamples.tea
  /\ derived MoreExamples.sameDay ALL (str "1970-01-02") !! 1%nat
     = Some Examples.milk
  /\ createdAt Examples.milk <= createdAt MoreExamples.tea.
Proof.
  assert (H0 : derived MoreExamples.sameDay ALL (str "1970-01-02") !! 0%nat
               = Some MoreExamples.tea) by (vm_compute; reflexivity).
  assert (H1 : derived MoreExamples.sameDay ALL (str "1970-01-02") !! 1%nat
               = Some Examples.milk) by (vm_compute; reflexivity).
  split; [reflexivity|]. split; [exact H0|]. split; [exact H1|].
  exact (derived_order_date MoreExamples.sameDay ALL (str "1970-01-02")
           0%nat 1%nat MoreExamples.tea Examples.milk eq_refl H0 H1
           ltac:(lia) (fun _ => eq_refl)).
Defined.

Lemma compareTasks_order_witness :
  compareTasks ALL [] Examples.trip Examples.flight <= 0
  /\ compareTasks ALL [] Examples.flight Examples.done1 <= 0
  /\ compareTasks ALL [] Examples.trip Examples.done1 <= 0.
Proof.
  assert (H1 : compareTasks ALL [] Examples.trip Examples.flight <= 0)
    by (vm_compute; discriminate).
  assert (H2 : compareTasks ALL [] Examples.flight Examples.done1 <= 0)
    by (vm_compute; discriminate).
  split; [exact H1|]. split; [exact H2|].
  exact (proj2 (compareTasks_order ALL [] Examples.trip Examples.flight
                  Examples.done1) H1 H2).
Defined.

Lemma added_task_shown_witness :
  trim (str " Plan trip ") <> []
  /\ dateFromInput (str "2024-07-01") <> 0
  /\ localDay (dateFromInput (str "2024-07-01")) = str "2024-07-01"
  /\ In {| id := str "u9"; text := str "Plan trip"; completed := false;
           createdAt := 7000; dueDate := Some 1719792000000 |}
        (derived (addTask (str "u9") 7000 (str " Plan trip ")
                    (Some (str "2024-07-01")) [Examples.milk])
           ACTIVE (str "2024-07-01")).
Proof.
  assert (Hz : dateFromInput (str "2024-07-01") <> 0)
    by (vm_compute; discriminate).
  assert (Hd : localDay (dateFromInput (str "2024-07-01")) = str "2024-07-01")
    by (vm_compute; reflexivity).
  split; [discriminate|]. split; [exact Hz|]. split; [exact Hd|].
  exact (added_task_shown (str "u9") 7000 (str " Plan trip ")
           (str "2024-07-01") [Examples.milk]
           ltac:(discriminate) ltac:(discriminate) Hz Hd).
Defined.

Lemma save_unchanged_witness :
  trim (text Examples.milk) = text Examples.milk
  /\ text Examples.milk <> []
  /\ snd (handleSave Examples.milk (TaskItem.opened Examples.milk)
            [Examples.flight; Examples.milk])
     = [Examples.flight; Examples.milk].
Proof.
  split; [reflexivity|]. split; [discriminate|].
  apply (save_unchanged Examples.milk [Examples.flight; Examples.milk]).
  - reflexivity.
  - discriminate.
  - intros d Hd. injection Hd as <-. split; [discriminate|].
    vm_compute. reflexivity.
  - repeat constructor; intros E; try reflexivity; discriminate E.
Defined.

End OnUTC_Pipeline.

(** ** The handlers of the task item *)

Section ItemKeys.
Context `{Calendar}.

(** X19: in the editor, Escape puts the fields back to the task's text and
    date, closes the editor and leaves the store alone; the store changes
    on no key but Enter, and on Enter only when the text is not empty once
    trimmed. *)
Theorem item_handleKeyDown_spec (key : jsstring) (task : Task)
    (st : ItemState) (tasks : list Task) :
  (key = str "Escape" ->
   TaskItem.handleKeyDown key task st tasks
   = ({| isEditing := false; editText := text task;
         editDate := getInputValue (dueDate task) |}, tasks))
  /\ (snd (TaskItem.handleKeyDown key task st tasks) <> tasks ->
      key = str "Enter" /\ trim (editText st) <> []).
Proof.
  unfold TaskItem.handleKeyDown. split.
  - intros ->. reflexivity.
  - destruct (eqs key (str "Enter")) eqn:E.
    + apply eqs_true in E. subst key. simpl. unfold handleSave.
      destruct (truthy (trim (editText st))) eqn:Et; simpl.
      * intros _. split; [reflexivity | now apply truthy_true].
      * intros Hne. now contradiction Hne.
    + destruct (eqs key (str "Escape")); simpl; intros Hne;
        now contradiction Hne.
Qed.

End ItemKeys.

Section OnUTC_ItemKeys.
Local Existing Instance UTC.calendar.

Lemma item_handleKeyDown_spec_witness :
  TaskItem.handleKeyDown (str "Escape") Examples.milk MoreExamples.typing
    [Examples.milk]
  = ({| isEditing := false; editText := str "Buy milk";
        editDate := str "1970-01-02" |}, [Examples.milk])
  /\ snd (TaskItem.handleKeyDown (str "Enter") Examples.milk
            MoreExamples.typing [Examples.milk]) <> [Examples.milk]
  /\ trim (editText MoreExamples.typing) <> [].
Proof.
  assert (Hch : snd (TaskItem.handleKeyDown (str "Enter") Examples.milk
                       MoreExamples.typing [Examples.milk]) <> [Examples.milk])
    by (vm_compute; discriminate).
  split.
  - exact (proj1 (item_handleKeyDown_spec (str "Escape") Examples.milk
                    MoreExamples.typing [Examples.milk]) eq_refl).
  - split; [exact Hch|].
    exact (proj2 (proj2 (item_handleKeyDown_spec (str "Enter") Examples.milk
                           MoreExamples.typing [Examples.milk]) Hch)).
Defined.

End OnUTC_ItemKeys.

(** ** The suggestion client, further *)

Module ClientMore.
Import Gemini.

Section Client.
Variable API_KEY : option jsstring.
Variable generateContent : jsstring -> completion (option jsstring).
Variable JSON_parse : jsstring -> completion json.

Abbreviation run := (suggestSubtasks API_KEY generateContent JSON_parse).

(** X20: a call of the client sends at most one request, with the contents
    made from the task text, and never a second one after a failure; it
    writes to the console only the warning of a missing credential, with no
    request sent, or the one error that ended the request. *)
Theorem suggestSubtasks_one_request (taskText : jsstring) :
  snd (run taskText) = [ConsoleWarn]
  \/ snd (run taskText) = [Request (contentsFor taskText)]
  \/ exists e,
       snd (run taskText) = [Request (contentsFor taskText); ConsoleError e].
Proof.
  unfold suggestSubtasks.
  destruct (truthy (apiKey API_KEY)); simpl; [|now left].
  right.
  destruct (generateContent (contentsFor taskText)) as [t|e]; simpl; [|eauto].
  destruct (truthyText t); simpl; [|now left].
  destruct (JSON_parse (default [] t)) as [v|e]; simpl; [|eauto].
  destruct (getSubtasks v) as [f|e]; simpl; eauto.
Qed.

(** X21: with a credential, when the service answers with a text that
    parses to an object whose [subtasks] field is an array with an item in
    it, the client returns that array as it is, after one request and with
    nothing written to the console. *)
Theorem suggestSubtasks_success (taskText s : jsstring)
    (fields : list (jsstring * json)) (item : json) (items : list json) :
  truthy (apiKey API_KEY) = true ->
  generateContent (contentsFor taskText) = Return (Some s) ->
  s <> [] ->
  JSON_parse s = Return (JObj fields) ->
  lookupField (str "subtasks") fields = Some (JArr (item :: items)) ->
  run taskText
  = (Return (JArr (item :: items)), [Request (contentsFor taskText)]).
Proof.
  intros Hk Hg Hs Hp Hf. apply truthy_true in Hs.
  unfold suggestSubtasks. rewrite Hk. simpl. rewrite Hg. simpl.
  rewrite Hs. simpl. rewrite Hp. simpl. rewrite Hf. reflexivity.
Qed.

End Client.

Lemma suggestSubtasks_success_witness :
  suggestSubtasks (Some (str "key")) MoreExamples.service MoreExamples.parser
    (str "Plan trip")
  = (Return (JArr [JStr (str "Book"); JStr (str "Pack")]),
     [Request (contentsFor (str "Plan trip"))]).
Proof.
  exact (suggestSubtasks_success (Some (str "key")) MoreExamples.service
           MoreExamples.parser (str "Plan trip") MoreExamples.answer
           _ (JStr (str "Book")) [JStr (str "Pack")]
           eq_refl eq_refl ltac:(discriminate) eq_refl eq_refl).
Defined.

End ClientMore.

(** ** The handlers of the application component *)

Module AppFacts.
Import App.

Section Handlers.
Context `{Calendar}.
Variable API_KEY : option jsstring.
Variable generateContent : jsstring -> Gemini.completion (option jsstring).
Variable JSON_parse : jsstring -> Gemini.completion Gemini.json.
Variable String_json : Gemini.json -> jsstring.
Variable draw : nat -> jsstring * Z.
Variable renders : nat -> bool.

Abbreviation textOf := (subtaskText String_json).
Abbreviation breakdown :=
  (handleAiBreakdown API_KEY generateContent JSON_parse String_json draw
     renders).

(** The text of a subtask starts with the arrow: trimming never empties
    it. *)
Lemma subtaskText_truthy (sub : Gemini.json) :
  truthy (trim (textOf sub)) = true.
Proof.
  unfold subtaskText, trim. simpl.
  match goal with |- context [trimEnd ?r] => destruct (trimEnd r) end;
    reflexivity.
Qed.

(** Whatever is rendered in between, the subtasks end up in the list with
    the tasks that were there. *)
Lemma addSubtasks_perm (f : FilterType) (fd : jsstring) (n : nat)
    (subs : list Gemini.json) (l : list Task) :
  exists added,
    Permutation (addSubtasks String_json draw renders f fd n subs l)
      (added ++ l)
    /\ List.map text added
       = List.rev (List.map (fun sub => trim (textOf sub)) subs)
    /\ Forall (fun t => completed t = false /\ dueDate t = None) added.
Proof.
  revert n l. induction subs as [|sub subs IH]; intros n l.
  - exists []. split; [reflexivity|]. split; [reflexivity | constructor].
  - simpl addSubtasks. unfold addTask at 1 2. rewrite subtaskText_truthy.
    simpl negb. cbv iota.
    pose (t := mkTask (fst (draw n)) (trim (textOf sub)) false (snd (draw n))
                 (dueDateOf None)).
    fold t.
    assert (Hp : Permutation
                   (if renders n then tasksAfter (t :: l) f fd else t :: l)
                   (t :: l)).
    { destruct (renders n); [symmetry; apply tasksAfter_perm | reflexivity]. }
    destruct (IH (S n) (if renders n then tasksAfter (t :: l) f fd else t :: l))
      as (added & E & Ht & Hall).
    exists (added ++ [t]). split; [|split].
    + eapply Permutation_trans; [exact E|]. rewrite <- List.app_assoc.
      simpl. apply Permutation_app_head. exact Hp.
    + rewrite List.map_app, Ht. reflexivity.
    + apply List.Forall_app. split; [exact Hall|].
      constructor; [|constructor]. split; reflexivity.
Qed.

(** With batching nothing is rendered between the subtasks: each is put in
    front of the ones before it. *)
Lemma addSubtasks_batched (f : FilterType) (fd : jsstring) (n : nat)
    (subs : list Gemini.json) (l : list Task) :
  (forall k, renders k = false) ->
  List.map text (addSubtasks String_json draw renders f fd n subs l)
  = List.rev (List.map (fun sub => trim (textOf sub)) subs) ++ List.map text l.
Proof.
  intros Hb. revert n l. induction subs as [|sub subs IH]; intros n l;
    [reflexivity|].
  simpl addSubtasks. rewrite Hb, IH. unfold addTask.
  rewrite subtaskText_truthy. simpl. now rewrite <- List.app_assoc.
Qed.

(** X22: [handleAiBreakdown] does nothing on a text that is empty once
    trimmed.  Otherwise, whatever the client returns and whenever the
    component renders in between, the store afterwards holds the tasks of
    the old store, the main task, and further tasks that are not completed
    and have no due date, and nothing else; the loading flag is cleared and
    the filters are kept. *)
Theorem handleAiBreakdown_spec (today : Z) (s : State) :
  (trim (newTaskText s) = [] -> breakdown today s = (s, []))
  /\ (trim (newTaskText s) <> [] ->
      isAiLoading (fst (breakdown today s)) = false
      /\ filter (fst (breakdown today s)) = filter s
      /\ filterDate (fst (breakdown today s)) = filterDate s
      /\ exists added,
           Permutation (tasks (fst (breakdown today s)))
             (added ++ {| id := fst (draw 0%nat);
                          text := trim (newTaskText s);
                          completed := false; createdAt := snd (draw 0%nat);
                          dueDate := dueDateOf (Some (newTaskDate s)) |}
                       :: tasks s)
           /\ Forall (fun t => completed t = false /\ dueDate t = None) added).
Proof.
  unfold handleAiBreakdown. split.
  - intros ->. reflexivity.
  - intros Hne. apply truthy_true in Hne. rewrite Hne. simpl negb.
    cbv iota zeta.
    assert (Ea : addTask (fst (draw 0%nat)) (snd (draw 0%nat)) (newTaskText s)
                   (Some (newTaskDate s)) (tasks s)
                 = {| id := fst (draw 0%nat); text := trim (newTaskText s);
                      completed := false; createdAt := snd (draw 0%nat);
                      dueDate := dueDateOf (Some (newTaskDate s)) |}
                   :: tasks s)
      by (unfold addTask; now rewrite Hne).
    rewrite !Ea.
    match goal with |- context [tasksAfter ?l ?f ?fd] =>
      pose proof (tasksAfter_perm l f fd) as Hshown end.
    destruct (Gemini.suggestSubtasks API_KEY generateContent JSON_parse
                (newTaskText s)) as [[v|e] events].
    + destruct v; cbn [fst tasks isAiLoading filter filterDate];
        repeat split;
        try (exists []; split; [symmetry; exact Hshown | constructor]).
      match goal with |- context [addSubtasks _ _ _ ?f ?fd ?n ?subs ?l] =>
        destruct (addSubtasks_perm f fd n subs l) as (added & E & _ & Hall) end.
      exists added. split; [|exact Hall].
      eapply Permutation_trans; [exact E|].
      apply Permutation_app_head. symmetry. exact Hshown.
    + cbn [fst tasks isAiLoading filter filterDate]. repeat split.
      exists []. split; [symmetry; exact Hshown | constructor].
Qed.

(** X23: when the client returns an array, [handleAiBreakdown] adds the
    main task and one task for every item of the array, empty strings
    included, and loses none: the texts of the store afterwards are the
    texts it had, the trimmed main text and the trimmed arrow template of
    each item; the text field is cleared and the date field set to today.
    When the updates after the wait are batched, the subtasks stand in
    front of the store as the rendering during the wait left it, the last
    suggestion first. *)
Theorem handleAiBreakdown_array (today : Z) (s : State)
    (subs : list Gemini.json) :
  trim (newTaskText s) <> [] ->
  fst (Gemini.suggestSubtasks API_KEY generateContent JSON_parse
         (newTaskText s)) = Gemini.Return (Gemini.JArr subs) ->
  Permutation (List.map text (tasks (fst (breakdown today s))))
    (List.map (fun sub => trim (textOf sub)) subs
       ++ trim (newTaskText s) :: List.map text (tasks s))
  /\ List.length (tasks (fst (breakdown today s)))
     = (List.length subs + 1 + List.length (tasks s))%nat
  /\ newTaskText (fst (breakdown today s)) = []
  /\ newTaskDate (fst (breakdown today s)) = getTodayDate today
  /\ ((forall k, renders k = false) ->
      List.map text (tasks (fst (breakdown today s)))
      = List.rev (List.map (fun sub => trim (textOf sub)) subs)
          ++ List.map text
               (tasksAfter
                  ({| id := fst (draw 0%nat); text := trim (newTaskText s);
                      completed := false; createdAt := snd (draw 0%nat);
                      dueDate := dueDateOf (Some (newTaskDate s)) |}
                   :: tasks s)
                  (filter s) (filterDate s))).
Proof.
  intros Hne Hret. apply truthy_true in Hne.
  unfold handleAiBreakdown. rewrite Hne. simpl negb. cbv iota zeta.
  assert (Ea : addTask (fst (draw 0%nat)) (snd (draw 0%nat)) (newTaskText s)
                 (Some (newTaskDate s)) (tasks s)
               = {| id := fst (draw 0%nat); text := trim (newTaskText s);
                    completed := false; createdAt := snd (draw 0%nat);
                    dueDate := dueDateOf (Some (newTaskDate s)) |}
                 :: tasks s)
    by (unfold addTask; now rewrite Hne).
  rewrite !Ea.
  destruct (Gemini.suggestSubtasks API_KEY generateContent JSON_parse
              (newTaskText s)) as [c events].
  simpl in Hret. subst c. cbn [fst tasks newTaskText newTaskDate].
  match goal with |- context [tasksAfter ?l ?f ?fd] =>
    pose proof (tasksAfter_perm l f fd) as Hshown;
    set (shown := tasksAfter l f fd) in * end.
  destruct (addSubtasks_perm (filter s) (filterDate s) 1%nat subs shown)
    as (added & E & Ht & _).
  assert (Hp : Permutation
                 (List.map text
                    (addSubtasks String_json draw renders (filter s)
                       (filterDate s) 1%nat subs shown))
                 (List.map (fun sub => trim (textOf sub)) subs
                    ++ trim (newTaskText s) :: List.map text (tasks s))).
  { eapply Permutation_trans; [apply Permutation_map; exact E|].
    rewrite List.map_app, Ht.
    apply Permutation_app; [symmetry; apply Permutation_rev|].
    change (trim (newTaskText s) :: List.map text (tasks s))
      with (List.map text
              ({| id := fst (draw 0%nat); text := trim (newTaskText s);
                  completed := false; createdAt := snd (draw 0%nat);
                  dueDate := dueDateOf (Some (newTaskDate s)) |} :: tasks s)).
    apply Permutation_map. symmetry. exact Hshown. }
  split; [exact Hp|]. split; [|split; [reflexivity|split; [reflexivity|]]].
  - rewrite <- (List.length_map text), (Permutation_length Hp),
      List.length_app, !List.length_map. simpl. rewrite List.length_map. lia.
  - intros Hb. now apply addSubtasks_batched.
Qed.

(** X24: in the new-task field the store changes on no key but Enter, and
    on Enter only when the text is not empty once trimmed; Enter always
    clears the text field and sets the date field to today, and keeps the
    filters. *)
Theorem app_handleKeyDown_spec (key uuid : jsstring) (now today : Z)
    (s : State) :
  (tasks (handleKeyDown key uuid now today s) <> tasks s ->
   key = str "Enter" /\ trim (newTaskText s) <> [])
  /\ (key = str "Enter" ->
      newTaskText (handleKeyDown key uuid now today s) = []
      /\ newTaskDate (handleKeyDown key uuid now today s) = getTodayDate today
      /\ filter (handleKeyDown key uuid now today s) = filter s
      /\ filterDate (handleKeyDown key uuid now today s) = filterDate s).
Proof.
  unfold handleKeyDown. split.
  - destruct (eqs key (str "Enter")) eqn:E.
    + apply eqs_true in E. simpl. unfold addTask.
      destruct (truthy (trim (newTaskText s))) eqn:Et; simpl; intros Hne.
      * split; [exact E | now apply truthy_true].
      * now contradiction Hne.
    + intros Hne. now contradiction Hne.
  - intros ->. simpl. repeat split.
Qed.

End Handlers.

Section OnUTC.
Local Existing Instance UTC.calendar.

Abbreviation exampleRun :=
  (handleAiBreakdown (Some (str "key")) MoreExamples.service
     MoreExamples.parser (fun _ => []) MoreExamples.draws (fun _ => false)
     1719800000000 MoreExamples.form).

Lemma handleAiBreakdown_spec_witness :
  trim (newTaskText MoreExamples.form) <> []
  /\ isAiLoading (fst exampleRun) = false
  /\ handleAiBreakdown None MoreExamples.service MoreExamples.parser
       (fun _ => []) MoreExamples.draws (fun _ => false) 1719800000000
       MoreExamples.blank
     = (MoreExamples.blank, []).
Proof.
  split; [discriminate|]. split.
  - exact (proj1 (proj2 (handleAiBreakdown_spec (Some (str "key"))
             MoreExamples.service MoreExamples.parser (fun _ => [])
             MoreExamples.draws (fun _ => false) 1719800000000
             MoreExamples.form)
             ltac:(discriminate))).
  - exact (proj1 (handleAiBreakdown_spec None MoreExamples.service
             MoreExamples.parser (fun _ => []) MoreExamples.draws
             (fun _ => false) 1719800000000 MoreExamples.blank) eq_refl).
Defined.

(** The store held [Buy milk] and the main task is [Plan trip], due later:
    the rendering during the wait puts [Buy milk] first. *)
Lemma handleAiBreakdown_array_witness :
  trim (newTaskText MoreExamples.form) <> []
  /\ List.map text (tasks (fst exampleRun))
     = [[8627%N; 32%N] ++ str "Pack"; [8627%N; 32%N] ++ str "Book";
        str "Buy milk"; str "Plan trip"]
  /\ newTaskText (fst exampleRun) = [].
Proof.
  pose proof (handleAiBreakdown_array (Some (str "key")) MoreExamples.service
                MoreExamples.parser (fun _ => []) MoreExamples.draws
                (fun _ => false) 1719800000000 MoreExamples.form
                [Gemini.JStr (str "Book"); Gemini.JStr (str "Pack")]
                ltac:(discriminate) eq_refl) as (_ & _ & Hn & _ & Hb).
  split; [discriminate|]. split; [|exact Hn].
  rewrite (Hb (fun _ => eq_refl)). vm_compute. reflexivity.
Defined.

Lemma app_handleKeyDown_spec_witness :
  tasks (handleKeyDown (str "Enter") (str "u9") 7000 1719800000000
           MoreExamples.form) <> tasks MoreExamples.form
  /\ trim (newTaskText MoreExamples.form) <> []
  /\ newTaskDate (handleKeyDown (str "Enter") (str "u9") 7000 1719800000000
                    MoreExamples.form) = str "2024-07-01".
Proof.
  assert (Hch : tasks (handleKeyDown (str "Enter") (str "u9") 7000
                         1719800000000 MoreExamples.form)
                <> tasks MoreExamples.form) by (vm_compute; discriminate).
  pose proof (app_handleKeyDown_spec (str "Enter") (str "u9") 7000
                1719800000000 MoreExamples.form) as (Hstore & Hfields).
  split; [exact Hch|]. split; [exact (proj2 (Hstore Hch))|].
  exact (proj1 (proj2 (Hfields eq_refl))).
Defined.

End OnUTC.

End AppFacts.

Section OnUTC_Store.
Local Existing Instance UTC.calendar.

Lemma deleteTask_addTask_witness :
  ~ In (str "u9") (List.map id [Examples.flight; Examples.milk])
  /\ deleteTask (str "u9")
       (addTask (str "u9") 7000 (str "Plan trip") (Some (str "2024-07-01"))
          [Examples.flight; Examples.milk])
     = [Examples.flight; Examples.milk].
Proof.
  assert (Hi : ~ In (str "u9") (List.map id [Examples.flight; Examples.milk])).
  { simpl. intros [E|[E|[]]]; discriminate. }
  split; [exact Hi|].
  exact (deleteTask_addTask (str "u9") 7000 (str "Plan trip")
           (Some (str "2024-07-01")) [Examples.flight; Examples.milk] Hi).
Defined.

End OnUTC_Store.
